(** * Tsukamoto fuzzy inference for credit-risk scoring

    A shallow embedding of [services/fuzzy_logic/engine.py] and of
    [generate_membership_function_data] from
    [services/fuzzy_logic/visualization.py].

    Numbers.  The Python code computes on ints and floats; the
    specification speaks of reals.  The embedding uses exact rationals
    ([Q]): every constant of the rule base is an integer and every
    operation of the code is a field operation or a comparison, so the
    rationals are closed under all of it and the definitions stay
    executable.  Python's [==], [<=], [<] on numbers are [Qeq_bool],
    [Qle_bool] and [Qlt_bool]; numeric results are compared with [==]
    ([Qeq]) where two different fractions may denote the same number.
    Where the rounding of doubles decides a statement (the order in which
    a sum is accumulated), module [Binary64] repeats the inference step on
    primitive binary64 floats.

    Exceptions.  A Python [/] raises [ZeroDivisionError] on a zero divisor,
    a dict subscript raises [KeyError] on a missing key, and the
    visualisation helper raises [ValueError].  Fallible code therefore
    lives in the [result] monad below. *)

From Stdlib Require Import QArith Lqa Lia.
From Stdlib Require PrimFloat.
From stdpp Require Import gmap strings list fin_maps pretty.

Local Open Scope Q_scope.
Local Open Scope string_scope.

(** ** Exceptions and the result monad *)

Inductive exn : Type :=
| ZeroDivisionError
| KeyError (key : string)
| ValueError (msg : string).

Inductive result (A : Type) : Type :=
| Ok (a : A)
| Raise (e : exn).
Arguments Ok {A} a.
Arguments Raise {A} e.

Definition bind {A B : Type} (m : result A) (k : A -> result B) : result B :=
  match m with
  | Ok a => k a
  | Raise e => Raise e
  end.

Notation "'let*' x := m 'in' k" := (bind m (fun x => k))
  (at level 10, x pattern, m at level 100, k at level 200).

Definition returns {A : Type} (m : result A) : Prop := exists a, m = Ok a.

(** ** Python's numeric operators on rationals *)

Definition Qlt_bool (x y : Q) : bool := negb (Qle_bool y x).

(** [x / y] of Python: raises on a zero divisor. *)
Definition py_div (x y : Q) : result Q :=
  if Qeq_bool y 0 then Raise ZeroDivisionError else Ok (x / y).

(** [min(a, b, c)] and [max(a, b, c)] of Python: the first extremal
    argument is returned. *)
Definition py_min2 (a b : Q) : Q := if Qlt_bool b a then b else a.
Definition py_max2 (a b : Q) : Q := if Qlt_bool a b then b else a.
Definition py_min3 (a b c : Q) : Q := py_min2 (py_min2 a b) c.
Definition py_max3 (a b c : Q) : Q := py_max2 (py_max2 a b) c.

(** ** Membership functions *)

Inductive MembershipFunction : Type :=
| TriangularMF (name : string) (a b c : Q)
| TrapezoidalMF (name : string) (a b c d : Q).

Definition mf_name (mf : MembershipFunction) : string :=
  match mf with
  | TriangularMF n _ _ _ => n
  | TrapezoidalMF n _ _ _ _ => n
  end.

Module TriangularMF.

Definition evaluate (a b c x : Q) : result Q :=
  if Qle_bool x a || Qle_bool c x then Ok 0
  else if Qeq_bool x b then Ok 1
  else if Qlt_bool x b then py_div (x - a) (b - a)
  else py_div (c - x) (c - b).

Definition inverse (a b c y : Q) : Q :=
  if Qeq_bool y 0 then b
  else if Qle_bool y 1 then
    let x_left := a + y * (b - a) in
    let x_right := c - y * (c - b) in
    (x_left + x_right) / 2
  else b.

End TriangularMF.

Module TrapezoidalMF.

Definition evaluate (a b c d x : Q) : result Q :=
  if Qle_bool x a || Qle_bool d x then Ok 0
  else if Qle_bool b x && Qle_bool x c then Ok 1
  else if Qlt_bool x b then py_div (x - a) (b - a)
  else py_div (d - x) (d - c).

Definition inverse (a b c d y : Q) : Q :=
  if Qeq_bool y 0 then (b + c) / 2
  else if Qeq_bool y 1 then (b + c) / 2
  else if Qlt_bool y 1 then
    let x_left := a + y * (b - a) in
    let x_right := d - y * (d - c) in
    (x_left + x_right) / 2
  else (b + c) / 2.

End TrapezoidalMF.

(** Dynamic dispatch of [mf.evaluate(x)] and [mf.inverse(y)]. *)
Definition mf_evaluate (mf : MembershipFunction) (x : Q) : result Q :=
  match mf with
  | TriangularMF _ a b c => TriangularMF.evaluate a b c x
  | TrapezoidalMF _ a b c d => TrapezoidalMF.evaluate a b c d x
  end.

Definition mf_inverse (mf : MembershipFunction) (y : Q) : Q :=
  match mf with
  | TriangularMF _ a b c => TriangularMF.inverse a b c y
  | TrapezoidalMF _ a b c d => TrapezoidalMF.inverse a b c d y
  end.

(** ** Dictionaries *)

(** [d[k]] of Python. *)
Definition py_getitem {V : Type} (d : gmap string V) (k : string) : result V :=
  match d !! k with
  | Some v => Ok v
  | None => Raise (KeyError k)
  end.

(** A [for] loop threading an accumulator through a fallible body. *)
Fixpoint foldM {A B : Type} (f : B -> A -> result B) (acc : B) (l : list A)
  : result B :=
  match l with
  | [] => Ok acc
  | x :: rest => let* acc' := f acc x in foldM f acc' rest
  end.

(** ** Fuzzy variables *)

Record FuzzyVariable : Type := mkFuzzyVariable {
  name : string;
  range : Q * Q;
  membership_functions : gmap string MembershipFunction
}.

Definition new_FuzzyVariable (n : string) (range_min range_max : Q)
  : FuzzyVariable :=
  {| name := n; range := (range_min, range_max); membership_functions := ∅ |}.

Definition add_membership_function (v : FuzzyVariable)
  (mf : MembershipFunction) : FuzzyVariable :=
  {| name := name v; range := range v;
     membership_functions := <[mf_name mf := mf]> (membership_functions v) |}.

Definition fuzzify (v : FuzzyVariable) (x : Q) : result (gmap string Q) :=
  foldM (fun res '(n, mf) =>
           let* d := mf_evaluate mf x in Ok (<[n := d]> res))
        ∅ (map_to_list (membership_functions v)).

(** ** Fuzzy rules *)

Record FuzzyRule : Type := mkFuzzyRule {
  antecedent_func : gmap string Q -> result Q;
  consequent_var : string;
  consequent_term : string
}.

Definition rule_evaluate (r : FuzzyRule) (inputs : gmap string Q) : result Q :=
  antecedent_func r inputs.

(** ** The Tsukamoto inference system *)

Record TsukamotoFIS : Type := mkTsukamotoFIS {
  variables : gmap string FuzzyVariable;
  rules : list FuzzyRule;
  output_variables : gset string
}.

Module TsukamotoFIS.

Definition init : TsukamotoFIS :=
  {| variables := ∅; rules := []; output_variables := ∅ |}.

Definition add_variable (fis : TsukamotoFIS) (variable : FuzzyVariable)
  (is_output : bool) : TsukamotoFIS :=
  {| variables := <[name variable := variable]> (variables fis);
     rules := rules fis;
     output_variables :=
       if is_output then {[name variable]} ∪ output_variables fis
       else output_variables fis |}.

Definition add_rule (fis : TsukamotoFIS) (rule : FuzzyRule) : TsukamotoFIS :=
  {| variables := variables fis;
     rules := rules fis ++ [rule];
     output_variables := output_variables fis |}.

(** First loop of [evaluate]: the firing strength of every rule, kept
    next to the rule. *)
Fixpoint fire (rs : list FuzzyRule) (inputs : gmap string Q)
  : result (list (FuzzyRule * Q)) :=
  match rs with
  | [] => Ok []
  | rule :: rest =>
      let* firing_strength := rule_evaluate rule inputs in
      let* rule_results := fire rest inputs in
      Ok ((rule, firing_strength) :: rule_results)
  end.

(** Body of the inner loop: one rule's contribution to
    [(weighted_sum, weight_sum)]. *)
Definition accumulate (fis : TsukamotoFIS) (output_var : string)
  (acc : Q * Q) (rr : FuzzyRule * Q) : result (Q * Q) :=
  let '(weighted_sum, weight_sum) := acc in
  let '(rule, firing_strength) := rr in
  if bool_decide (consequent_var rule = output_var)
     && Qlt_bool 0 firing_strength
  then
    let* var := py_getitem (variables fis) output_var in
    let* mf := py_getitem (membership_functions var) (consequent_term rule) in
    let crisp_value := mf_inverse mf firing_strength in
    Ok (weighted_sum + crisp_value * firing_strength,
        weight_sum + firing_strength)
  else Ok acc.

(** Body of the outer loop: the value stored under [output_var]. *)
Definition defuzzify (fis : TsukamotoFIS) (output_var : string)
  (rule_results : list (FuzzyRule * Q)) : result Q :=
  let* (weighted_sum, weight_sum) :=
    foldM (accumulate fis output_var) (0, 0) rule_results in
  if Qlt_bool 0 weight_sum then py_div weighted_sum weight_sum
  else
    let* var := py_getitem (variables fis) output_var in
    let var_range := range var in
    Ok ((fst var_range + snd var_range) / 2).

(** [evaluate].  [output_variables] is a Python set, whose iteration order
    is unspecified; the model visits [elements] of the set.  The result
    is a dict, so that order only decides which exception is seen first
    when more than one output fails. *)
Definition evaluate (fis : TsukamotoFIS) (inputs : gmap string Q)
  : result (gmap string Q) :=
  let* rule_results := fire (rules fis) inputs in
  foldM (fun res output_var =>
           let* v := defuzzify fis output_var rule_results in
           Ok (<[output_var := v]> res))
        ∅ (elements (output_variables fis)).

End TsukamotoFIS.

(** ** The credit-risk rule base ([create_credit_risk_fis]) *)

Definition income_var : FuzzyVariable :=
  let v := new_FuzzyVariable "income" 0 20000000 in
  let v := add_membership_function v (TrapezoidalMF "low" 0 0 2500000 3000000) in
  let v := add_membership_function v (TriangularMF "medium" 2500000 5000000 7000000) in
  add_membership_function v (TrapezoidalMF "high" 6500000 7000000 20000000 20000000).

Definition dependents_var : FuzzyVariable :=
  let v := new_FuzzyVariable "dependents" 0 10 in
  let v := add_membership_function v (TrapezoidalMF "few" 0 0 1 2) in
  let v := add_membership_function v (TriangularMF "average" 1 2 3) in
  add_membership_function v (TrapezoidalMF "many" 3 4 10 10).

Definition credit_history_var : FuzzyVariable :=
  let v := new_FuzzyVariable "credit_history" 0 10 in
  let v := add_membership_function v (TrapezoidalMF "poor" 0 0 3 4) in
  let v := add_membership_function v (TriangularMF "average" 3 5 7) in
  add_membership_function v (TrapezoidalMF "good" 6 7 10 10).

Definition risk_var : FuzzyVariable :=
  let v := new_FuzzyVariable "risk" 0 100 in
  let v := add_membership_function v (TrapezoidalMF "low" 0 0 30 40) in
  let v := add_membership_function v (TriangularMF "medium" 30 50 70) in
  add_membership_function v (TrapezoidalMF "high" 60 70 100 100).

Definition eligibility_var : FuzzyVariable :=
  let v := new_FuzzyVariable "eligibility" 0 100 in
  let v := add_membership_function v (TrapezoidalMF "not_eligible" 0 0 30 40) in
  let v := add_membership_function v (TriangularMF "under_consideration" 30 50 70) in
  add_membership_function v (TrapezoidalMF "eligible" 60 70 100 100).

(** [var.membership_functions[term].evaluate(inputs[key])]: the term is
    looked up first, then the input, then the shape is evaluated. *)
Definition degree_of (var : FuzzyVariable) (term key : string)
  (inputs : gmap string Q) : result Q :=
  let* mf := py_getitem (membership_functions var) term in
  let* x := py_getitem inputs key in
  mf_evaluate mf x.

Definition rule1_antecedent (inputs : gmap string Q) : result Q :=
  let* income_high := degree_of income_var "high" "income" inputs in
  let* dependents_few := degree_of dependents_var "few" "dependents" inputs in
  let* credit_good := degree_of credit_history_var "good" "credit_history" inputs in
  Ok (py_min3 income_high dependents_few credit_good).

Definition rule3_antecedent (inputs : gmap string Q) : result Q :=
  let* income_medium := degree_of income_var "medium" "income" inputs in
  let* dependents_avg := degree_of dependents_var "average" "dependents" inputs in
  let* credit_avg := degree_of credit_history_var "average" "credit_history" inputs in
  Ok (py_min3 income_medium dependents_avg credit_avg).

Definition rule5_antecedent (inputs : gmap string Q) : result Q :=
  let* income_low := degree_of income_var "low" "income" inputs in
  let* dependents_many := degree_of dependents_var "many" "dependents" inputs in
  let* credit_poor := degree_of credit_history_var "poor" "credit_history" inputs in
  Ok (py_max3 income_low dependents_many credit_poor).

Definition create_credit_risk_fis : TsukamotoFIS :=
  let fis := TsukamotoFIS.init in
  let fis := TsukamotoFIS.add_variable fis income_var false in
  let fis := TsukamotoFIS.add_variable fis dependents_var false in
  let fis := TsukamotoFIS.add_variable fis credit_history_var false in
  let fis := TsukamotoFIS.add_variable fis risk_var true in
  let fis := TsukamotoFIS.add_variable fis eligibility_var true in
  let fis := TsukamotoFIS.add_rule fis
               (mkFuzzyRule rule1_antecedent "eligibility" "eligible") in
  let fis := TsukamotoFIS.add_rule fis
               (mkFuzzyRule rule1_antecedent "risk" "low") in
  let fis := TsukamotoFIS.add_rule fis
               (mkFuzzyRule rule3_antecedent "eligibility" "under_consideration") in
  let fis := TsukamotoFIS.add_rule fis
               (mkFuzzyRule rule3_antecedent "risk" "medium") in
  let fis := TsukamotoFIS.add_rule fis
               (mkFuzzyRule rule5_antecedent "eligibility" "not_eligible") in
  TsukamotoFIS.add_rule fis
    (mkFuzzyRule rule5_antecedent "risk" "high").

(** ** [evaluate_credit_risk] *)

Record CreditRisk : Type := mkCreditRisk { risk : Q; eligibility : Q }.

Definition evaluate_credit_risk (income dependents credit_history_rating : Q)
  : result CreditRisk :=
  let fis := create_credit_risk_fis in
  let* res :=
    TsukamotoFIS.evaluate fis
      (<["credit_history" := credit_history_rating]>
         (<["dependents" := dependents]> (<["income" := income]> ∅))) in
  let* r := py_getitem res "risk" in
  let* e := py_getitem res "eligibility" in
  Ok {| risk := r; eligibility := e |}.

Definition get_risk_level (risk_score : Q) : string :=
  if Qlt_bool risk_score 40 then "Low"
  else if Qlt_bool risk_score 70 then "Medium"
  else "High".

Definition get_eligibility_status (eligibility_score : Q) : string :=
  if Qlt_bool eligibility_score 40 then "Not Eligible"
  else if Qlt_bool eligibility_score 70 then "Under Consideration"
  else "Eligible".

(** ** Membership curves ([visualization.py]) *)

(** [numpy.linspace(start, stop, num)] with its defaults
    ([endpoint=True]).  numpy is an external library; this follows its
    implementation: a negative [num] is a [ValueError]; otherwise the
    samples are [i * step + start] for [i = 0 .. num-1] with
    [step = (stop - start) / (num - 1)] (for [num <= 1] no step exists and
    the samples are [i * (stop - start) + start]), and for [num > 1] the last
    sample is overwritten with [stop]. *)
Definition set_last (y : list Q) (v : Q) : list Q :=
  <[pred (length y) := v]> y.

Definition linspace (start stop : Q) (num : Z) : result (list Q) :=
  if (num <? 0)%Z then
    Raise (ValueError
             ("Number of samples, " +:+ pretty num +:+ ", must be non-negative."))
  else
    let div := (num - 1)%Z in
    let delta := stop - start in
    let y := (fun i : Z => inject_Z i) <$> seqZ 0 num in
    let y := if (0 <? div)%Z
             then let step := delta / inject_Z div in
                  (fun i => i * step) <$> y
             else (fun i => i * delta) <$> y in
    let y := (fun v => v + start) <$> y in
    Ok (if (1 <? num)%Z then set_last y stop else y).

(** One element of the returned list: [{"x": x_val, term: degree, ...}];
    [float(...)] is the identity on the rationals. *)
Definition curve_point (variable : FuzzyVariable) (x_val : Q)
  : result (gmap string Q) :=
  foldM (fun point '(mf_name, mf) =>
           let* d := mf_evaluate mf x_val in Ok (<[mf_name := d]> point))
        {["x" := x_val]} (map_to_list (membership_functions variable)).

Definition generate_membership_function_data (variable_name : string)
  (num_points : Z) : result (list (gmap string Q)) :=
  let fis := create_credit_risk_fis in
  if bool_decide (variable_name ∈ dom (variables fis)) then
    let* variable := py_getitem (variables fis) variable_name in
    let '(range_min, range_max) := range variable in
    let* x := linspace range_min range_max num_points in
    foldM (fun data x_val =>
             let* point := curve_point variable x_val in
             Ok ((data ++ [point])%list))
          [] x
  else
    Raise (ValueError ("Variable " +:+ variable_name +:+ " not found in FIS")).

(** ** Rule introspection ([visualization.py]) *)

(** [l[i]] on a list: a negative index counts from the end.  A failed
    subscript is Python's [IndexError], a [LookupError] like [KeyError];
    the model reports it as its lookup error, keyed by the index. *)
Definition py_list_getitem {A : Type} (l : list A) (i : Z) : result A :=
  let n := Z.of_nat (length l) in
  let j := if (i <? 0)%Z then (n + i)%Z else i in
  if (j <? 0)%Z || (n <=? j)%Z then Raise (KeyError (pretty i))
  else match l !! Z.to_nat j with
       | Some x => Ok x
       | None => Raise (KeyError (pretty i))
       end.

Module RuleFiring.
Record t : Type := mk {
  rule_index : Z;
  firing_strength : Q;
  consequent_var : string;
  consequent_term : string
}.
End RuleFiring.

Definition evaluate_rule (rule_index : Z) (inputs : gmap string Q)
  : result RuleFiring.t :=
  let fis := create_credit_risk_fis in
  if (rule_index <? 0)%Z || (Z.of_nat (length (rules fis)) <=? rule_index)%Z
  then Raise (ValueError ("Rule index " +:+ pretty rule_index +:+ " out of range"))
  else
    let* rule := py_list_getitem (rules fis) rule_index in
    let* firing_strength := rule_evaluate rule inputs in
    Ok {| RuleFiring.rule_index := rule_index;
          RuleFiring.firing_strength := firing_strength;
          RuleFiring.consequent_var := consequent_var rule;
          RuleFiring.consequent_term := consequent_term rule |}.

Definition descriptions : list string :=
  [ "IF income is high AND dependents are few AND credit history is good THEN eligibility is eligible";
    "IF income is high AND dependents are few AND credit history is good THEN risk is low";
    "IF income is medium AND dependents are average AND credit history is average THEN eligibility is under consideration";
    "IF income is medium AND dependents are average AND credit history is average THEN risk is medium";
    "IF income is low OR dependents are many OR credit history is poor THEN eligibility is not eligible";
    "IF income is low OR dependents are many OR credit history is poor THEN risk is high" ].

Definition get_rule_description (rule_index : Z) : result string :=
  if (rule_index <? 0)%Z || (Z.of_nat (length descriptions) <=? rule_index)%Z
  then Ok "Unknown rule"
  else py_list_getitem descriptions rule_index.

Module RuleData.
Record t : Type := mk {
  rule : string;
  antecedent : Q;
  consequent : Q;
  description : string;
  output_var : string;
  output_term : string;
  crisp_value : Q
}.
End RuleData.

(** The loop of [generate_rule_evaluation_data] over
    [enumerate(fis.rules)], from index [i] on. *)
Fixpoint rule_evaluation_loop (fis : TsukamotoFIS) (inputs : gmap string Q)
  (i : Z) (rs : list FuzzyRule) : result (list RuleData.t) :=
  match rs with
  | [] => Ok []
  | rule :: rest =>
      let* firing_strength := rule_evaluate rule inputs in
      let* var := py_getitem (variables fis) (consequent_var rule) in
      let* mf := py_getitem (membership_functions var) (consequent_term rule) in
      let crisp_value :=
        if Qlt_bool 0 firing_strength then mf_inverse mf firing_strength else 0 in
      let* description := get_rule_description i in
      let entry :=
        {| RuleData.rule := "Rule " +:+ pretty (i + 1)%Z;
           RuleData.antecedent := firing_strength;
           RuleData.consequent := firing_strength;
           RuleData.description := description;
           RuleData.output_var := consequent_var rule;
           RuleData.output_term := consequent_term rule;
           RuleData.crisp_value := crisp_value |} in
      let* data := rule_evaluation_loop fis inputs (i + 1) rest in
      Ok (entry :: data)
  end.

Definition generate_rule_evaluation_data (inputs : gmap string Q)
  : result (list RuleData.t) :=
  let fis := create_credit_risk_fis in
  rule_evaluation_loop fis inputs 0 (rules fis).

(** ** The request layer's use of the engine ([app.py]) *)

(** [str.lower()].  A string is its UTF-8 bytes; the ASCII capitals are
    mapped and every other byte is kept.  Python also maps non-ASCII
    capitals, to non-ASCII letters (or, for the Kelvin sign alone, to "k"),
    which cannot produce one of the three ASCII labels looked up below. *)
Definition ascii_lower (c : Ascii.ascii) : Ascii.ascii :=
  let n := Ascii.nat_of_ascii c in
  if (65 <=? n)%nat && (n <=? 90)%nat then Ascii.ascii_of_nat (n + 32) else c.

Fixpoint str_lower (s : string) : string :=
  match s with
  | EmptyString => EmptyString
  | String c rest => String (ascii_lower c) (str_lower rest)
  end.

(** [d.get(k, default)]. *)
Definition py_dict_get {V : Type} (d : gmap string V) (k : string) (dflt : V) : V :=
  match d !! k with
  | Some v => v
  | None => dflt
  end.

Definition credit_history_map : gmap string Q :=
  <["good" := 8]> (<["average" := 5]> (<["poor" := 2]> ∅)).

(** [credit_history_map.get(data['credit_history'].lower(), 5)], as both
    [create_application] and the rule-evaluation handler compute it. *)
Definition credit_history_value (credit_history : string) : Q :=
  py_dict_get credit_history_map (str_lower credit_history) 5.

(** [int(x)] on a number: truncation towards zero. *)
Definition py_int (x : Q) : Z := Z.quot (Qnum x) (Zpos (Qden x)).

Module ApplicationScores.
Record t : Type := mk {
  risk_score : Z;
  risk_level : string;
  eligibility_score : Z;
  eligibility_status : string
}.
End ApplicationScores.

(** The scoring steps of [create_application] (from the credit-history
    conversion to the two labels) on a request that holds the three
    fields with the types the handler expects: [monthly_income] and
    [dependents] real numbers, [credit_history] a string.  The handler
    does not validate the request: an absent field raises [KeyError], a
    [credit_history] that is not a string has no [lower], a field that is
    not a number fails in the first comparison of the engine; those
    requests, the customer lookup before these steps and the database
    write after them are outside the model. *)
Definition create_application_scores (monthly_income dependents : Q)
  (credit_history : string) : result ApplicationScores.t :=
  let credit_history_value := credit_history_value credit_history in
  let* result :=
    evaluate_credit_risk monthly_income dependents credit_history_value in
  let risk_score := py_int (risk result) in
  let eligibility_score := py_int (eligibility result) in
  let risk_level :=
    if (70 <=? risk_score)%Z then "High"
    else if (40 <=? risk_score)%Z then "Medium"
    else "Low" in
  let eligibility_status :=
    if (eligibility_score <? 40)%Z then "Not Eligible"
    else if (eligibility_score <? 70)%Z then "Under Consideration"
    else "Eligible" in
  Ok {| ApplicationScores.risk_score := risk_score;
        ApplicationScores.risk_level := risk_level;
        ApplicationScores.eligibility_score := eligibility_score;
        ApplicationScores.eligibility_status := eligibility_status |}.

(** A membership function whose breakpoints are ordered and lie in
    [lo, hi]. *)
Definition mf_within (lo hi : Q) (mf : MembershipFunction) : Prop :=
  match mf with
  | TriangularMF _ a b c => lo <= a /\ a <= b /\ b <= c /\ c <= hi
  | TrapezoidalMF _ a b c d => lo <= a /\ a <= b /\ b <= c /\ c <= d /\ d <= hi
  end.

(** One step of the inner loop of [evaluate] on a rule whose consequent
    resolves to [mf]: the accumulator after a rule of strength [fs]. *)
Definition gain (mf : MembershipFunction) (fs : Q) (acc : Q * Q) : Q * Q :=
  if Qlt_bool 0 fs
  then (fst acc + mf_inverse mf fs * fs, snd acc + fs)
  else acc.

(** The entry [generate_rule_evaluation_data] builds for a rule of
    strength [fs] whose consequent resolves to [mf]. *)
Definition rule_entry (label : string) (fs : Q) (description var term : string)
  (mf : MembershipFunction) : RuleData.t :=
  {| RuleData.rule := label;
     RuleData.antecedent := fs;
     RuleData.consequent := fs;
     RuleData.description := description;
     RuleData.output_var := var;
     RuleData.output_term := term;
     RuleData.crisp_value := if Qlt_bool 0 fs then mf_inverse mf fs else 0 |}.

(** The entries of the rule data that belong to one output variable. *)
Definition entries_of (v : string) (data : list RuleData.t) : list RuleData.t :=
  List.filter (fun d => bool_decide (RuleData.output_var d = v)) data.

(** ** The engine invariant and the specification of defuzzification *)

(** The membership function a rule's consequent names, if the engine
    declares it. *)
Definition consequent_mf (fis : TsukamotoFIS) (r : FuzzyRule)
  : option MembershipFunction :=
  variables fis !! consequent_var r ≫= fun var =>
  membership_functions var !! consequent_term r.

(** Invariant of an engine (data model): output names are declared
    variables, and every rule's consequent names a declared output
    variable and one of its terms. *)
Definition engine_invariant (fis : TsukamotoFIS) : Prop :=
  output_variables fis ⊆ dom (variables fis) /\
  Forall (fun r => consequent_var r ∈ output_variables fis /\
                   is_Some (consequent_mf fis r)) (rules fis).

(** Engines reachable from the empty one by [add_variable] and
    [add_rule]. *)
Inductive assembled : TsukamotoFIS -> Prop :=
| assembled_init : assembled TsukamotoFIS.init
| assembled_add_variable fis variable is_output :
    assembled fis ->
    assembled (TsukamotoFIS.add_variable fis variable is_output)
| assembled_add_rule fis rule :
    assembled fis -> assembled (TsukamotoFIS.add_rule fis rule).

(** Specification of the defuzzified value (inference step 2), in the
    specification's words: [spec_S] is the set S of fired rules of an
    output variable, [spec_crisp] the crisp value of one of them, and the
    result is the quotient of the two sums over S, or the midpoint of the
    range when S is empty. *)
Definition Qsum (l : list Q) : Q := foldr Qplus 0 l.

Definition spec_S (v : string) (rule_results : list (FuzzyRule * Q))
  : list (FuzzyRule * Q) :=
  List.filter
    (fun rr => bool_decide (consequent_var (fst rr) = v) && Qlt_bool 0 (snd rr))
    rule_results.

Definition spec_crisp (fis : TsukamotoFIS) (rr : FuzzyRule * Q) : option Q :=
  (fun mf => mf_inverse mf (snd rr)) <$> consequent_mf fis (fst rr).

Definition spec_weighted_average (crisps strengths : list Q) : Q :=
  Qsum (zip_with Qmult crisps strengths) / Qsum strengths.

Definition spec_midpoint (var : FuzzyVariable) : Q :=
  (fst (range var) + snd (range var)) / 2.



(** The two sums a reader of the rule data can form for one output. *)
Definition weighted_crisp (entries : list RuleData.t) : Q :=
  Qsum ((fun d => RuleData.crisp_value d * RuleData.antecedent d) <$> entries).

Definition total_strength (entries : list RuleData.t) : Q :=
  Qsum (RuleData.antecedent <$> entries).

(** ** The inference step on binary64 numbers *)

(** Python computes on binary64 doubles, where addition is commutative
    but not associative.  Statements that depend on the order in which
    sums are accumulated are therefore checked on this second embedding
    of [inverse] and of [TsukamotoFIS.evaluate], which repeats the
    definitions above with Rocq's primitive binary64 floats: the
    comparisons are IEEE comparisons, as Python's are, and [x / y] raises
    on a zero divisor. *)
Module Binary64.
Import PrimFloat.

Definition py_div (x y : float) : result float :=
  if (y =? 0)%float then Raise ZeroDivisionError else Ok (x / y)%float.

Inductive MembershipFunction : Type :=
| TriangularMF (name : string) (a b c : float)
| TrapezoidalMF (name : string) (a b c d : float).

Definition mf_inverse (mf : MembershipFunction) (y : float) : float :=
  match mf with
  | TriangularMF _ a b c =>
      if (y =? 0)%float then b
      else if (y <=? 1)%float then
        let x_left := (a + y * (b - a))%float in
        let x_right := (c - y * (c - b))%float in
        ((x_left + x_right) / 2)%float
      else b
  | TrapezoidalMF _ a b c d =>
      if (y =? 0)%float then ((b + c) / 2)%float
      else if (y =? 1)%float then ((b + c) / 2)%float
      else if (y <? 1)%float then
        let x_left := (a + y * (b - a))%float in
        let x_right := (d - y * (d - c))%float in
        ((x_left + x_right) / 2)%float
      else ((b + c) / 2)%float
  end.

Record FuzzyVariable : Type := mkFuzzyVariable {
  name : string;
  range : float * float;
  membership_functions : gmap string MembershipFunction
}.

Record FuzzyRule : Type := mkFuzzyRule {
  antecedent_func : gmap string float -> result float;
  consequent_var : string;
  consequent_term : string
}.

Record TsukamotoFIS : Type := mkTsukamotoFIS {
  variables : gmap string FuzzyVariable;
  rules : list FuzzyRule;
  output_variables : gset string
}.

Fixpoint fire (rs : list FuzzyRule) (inputs : gmap string float)
  : result (list (FuzzyRule * float)) :=
  match rs with
  | [] => Ok []
  | rule :: rest =>
      let* firing_strength := antecedent_func rule inputs in
      let* rule_results := fire rest inputs in
      Ok ((rule, firing_strength) :: rule_results)
  end.

Definition accumulate (fis : TsukamotoFIS) (output_var : string)
  (acc : float * float) (rr : FuzzyRule * float) : result (float * float) :=
  let '(weighted_sum, weight_sum) := acc in
  let '(rule, firing_strength) := rr in
  if bool_decide (consequent_var rule = output_var)
     && (0 <? firing_strength)%float
  then
    let* var := py_getitem (variables fis) output_var in
    let* mf := py_getitem (membership_functions var) (consequent_term rule) in
    let crisp_value := mf_inverse mf firing_strength in
    Ok ((weighted_sum + crisp_value * firing_strength)%float,
        (weight_sum + firing_strength)%float)
  else Ok acc.

Definition defuzzify (fis : TsukamotoFIS) (output_var : string)
  (rule_results : list (FuzzyRule * float)) : result float :=
  let* (weighted_sum, weight_sum) :=
    foldM (accumulate fis output_var) (0%float, 0%float) rule_results in
  if (0 <? weight_sum)%float then py_div weighted_sum weight_sum
  else
    let* var := py_getitem (variables fis) output_var in
    let var_range := range var in
    Ok ((fst var_range + snd var_range) / 2)%float.

Definition evaluate (fis : TsukamotoFIS) (inputs : gmap string float)
  : result (gmap string float) :=
  let* rule_results := fire (rules fis) inputs in
  foldM (fun res output_var =>
           let* v := defuzzify fis output_var rule_results in
           Ok (<[output_var := v]> res))
        ∅ (elements (output_variables fis)).





End Binary64.

(** * Properties *)

(** ** Boolean comparisons against their propositions *)

Lemma Qle_bool_true x y : Qle_bool x y = true <-> x <= y.
Proof. apply Qle_bool_iff. Qed.

Lemma Qle_bool_false x y : Qle_bool x y = false <-> y < x.
Proof.
  split; intros H.
  - apply Qnot_le_lt. intros Hle. apply Qle_bool_iff in Hle. congruence.
  - destruct (Qle_bool x y) eqn:E; [|reflexivity].
    apply Qle_bool_iff in E. lra.
Qed.

Lemma Qeq_bool_true x y : Qeq_bool x y = true <-> x == y.
Proof. apply Qeq_bool_iff. Qed.

Lemma Qeq_bool_false x y : Qeq_bool x y = false <-> ~ x == y.
Proof.
  split; intros H.
  - intros Heq. apply Qeq_bool_iff in Heq. congruence.
  - destruct (Qeq_bool x y) eqn:E; [|reflexivity].
    apply Qeq_bool_iff in E. contradiction.
Qed.

Lemma Qlt_bool_true x y : Qlt_bool x y = true <-> x < y.
Proof.
  unfold Qlt_bool. rewrite negb_true_iff. apply Qle_bool_false.
Qed.

Lemma Qlt_bool_false x y : Qlt_bool x y = false <-> y <= x.
Proof.
  unfold Qlt_bool. rewrite negb_false_iff. apply Qle_bool_true.
Qed.

(** Split on the next comparison of the goal, leaving its meaning as a
    hypothesis. *)
Ltac qcase :=
  match goal with
  | |- context [Qlt_bool ?x ?y] =>
      let H := fresh "Hc" in
      destruct (Qlt_bool x y) eqn:H;
      [apply Qlt_bool_true in H | apply Qlt_bool_false in H]
  | |- context [Qle_bool ?x ?y] =>
      let H := fresh "Hc" in
      destruct (Qle_bool x y) eqn:H;
      [apply Qle_bool_true in H | apply Qle_bool_false in H]
  | |- context [Qeq_bool ?x ?y] =>
      let H := fresh "Hc" in
      destruct (Qeq_bool x y) eqn:H;
      [apply Qeq_bool_true in H | apply Qeq_bool_false in H]
  end.

Ltac qcases := repeat (qcase; simpl).

Lemma py_div_ok x y : ~ y == 0 -> py_div x y = Ok (x / y).
Proof.
  intros H. unfold py_div. apply Qeq_bool_false in H. now rewrite H.
Qed.

Lemma Qdiv_unit_interval p q : 0 < p -> p < q -> 0 <= p / q <= 1.
Proof.
  intros Hp Hq. split.
  - apply Qle_shift_div_l; lra.
  - apply Qle_shift_div_r; lra.
Qed.

(** [lra] does not read [_ / 2]; halving is multiplication by [1 # 2]. *)
Ltac halves := unfold Qdiv in *; change (/ 2) with (1 # 2) in *.

(** ** Membership degrees *)

(** Whatever the parameters, the guards leave only non-zero divisors:
    evaluation never raises and the degree is in the unit interval. *)
Ltac degree_case :=
  first
    [ eexists; split; [reflexivity | lra]
    | rewrite py_div_ok by lra; eexists; split;
      [reflexivity | apply Qdiv_unit_interval; lra] ].

Lemma triangular_evaluate_total a b c x :
  exists d, TriangularMF.evaluate a b c x = Ok d /\ 0 <= d <= 1.
Proof. unfold TriangularMF.evaluate. qcases; degree_case. Qed.

Lemma trapezoidal_evaluate_total a b c d x :
  exists g, TrapezoidalMF.evaluate a b c d x = Ok g /\ 0 <= g <= 1.
Proof. unfold TrapezoidalMF.evaluate. qcases; degree_case. Qed.

Lemma mf_evaluate_total mf x :
  exists d, mf_evaluate mf x = Ok d /\ 0 <= d <= 1.
Proof.
  destruct mf; simpl;
    [apply triangular_evaluate_total | apply trapezoidal_evaluate_total].
Qed.

(** The three cases of the triangular inverse and the two of the
    trapezoidal one. *)
Lemma triangular_inverse_cases a b c y :
  (y == 0 -> TriangularMF.inverse a b c y = b) /\
  (0 < y -> y <= 1 ->
   TriangularMF.inverse a b c y
   = ((a + y * (b - a)) + (c - y * (c - b))) / 2) /\
  (1 < y -> TriangularMF.inverse a b c y = b).
Proof.
  unfold TriangularMF.inverse. repeat split; intros; qcases;
    first [reflexivity | lra].
Qed.

Lemma trapezoidal_inverse_cases a b c d y :
  (y == 0 \/ y == 1 \/ 1 < y ->
   TrapezoidalMF.inverse a b c d y = (b + c) / 2) /\
  (0 < y -> y < 1 ->
   TrapezoidalMF.inverse a b c d y
   = ((a + y * (b - a)) + (d - y * (d - c))) / 2).
Proof.
  unfold TrapezoidalMF.inverse. repeat split; intros; qcases;
    first [reflexivity | lra].
Qed.

(** C2.  For a triangle with a <= b <= c, [inverse] returns b at degree 0,
    the average of the rising-edge point a + degree*(b-a) and the
    falling-edge point c - degree*(c-b) for 0 < degree <= 1, and b for
    degree > 1.  For a trapezoid with a <= b <= c <= d, [inverse] returns
    (b+c)/2 at degree 0, at degree 1 and above 1, and the average of
    a + degree*(b-a) and d - degree*(d-c) for 0 < degree < 1. *)
Theorem inverse_cases (a b c d y : Q) :
  a <= b -> b <= c -> c <= d ->
  ((y == 0 -> TriangularMF.inverse a b c y = b) /\
   (0 < y -> y <= 1 ->
    TriangularMF.inverse a b c y
    = ((a + y * (b - a)) + (c - y * (c - b))) / 2) /\
   (1 < y -> TriangularMF.inverse a b c y = b)) /\
  ((y == 0 \/ y == 1 \/ 1 < y ->
    TrapezoidalMF.inverse a b c d y = (b + c) / 2) /\
   (0 < y -> y < 1 ->
    TrapezoidalMF.inverse a b c d y
    = ((a + y * (b - a)) + (d - y * (d - c))) / 2)).
Proof.
  intros _ _ _. split;
    [apply triangular_inverse_cases | apply trapezoidal_inverse_cases].
Qed.

Lemma inverse_cases_witness :
  TriangularMF.inverse 30 50 70 (1 # 2)
  = ((30 + (1 # 2) * (50 - 30)) + (70 - (1 # 2) * (70 - 50))) / 2 /\
  TrapezoidalMF.inverse 30 50 70 100 1 = (50 + 70) / 2.
Proof.
  destruct (inverse_cases 30 50 70 100 (1 # 2)) as [[_ [Htri _]] _];
    [lra | lra | lra |].
  destruct (inverse_cases 30 50 70 100 1) as [_ [Htrap _]];
    [lra | lra | lra |].
  split.
  - apply Htri; lra.
  - apply Htrap. right; left. reflexivity.
Defined.

Ltac shape_case :=
  try match goal with H : _ \/ _ |- _ => destruct H end;
  first [reflexivity | lra | rewrite py_div_ok by lra; reflexivity].

(** Away from the guard and the peak, the triangular shape is as the
    cases read. *)
Lemma triangular_evaluate_cases a b c x :
  a <= b -> b <= c ->
  ((x <= a \/ c <= x) -> TriangularMF.evaluate a b c x = Ok 0) /\
  (x == b -> a < x -> x < c -> TriangularMF.evaluate a b c x = Ok 1) /\
  (a < x -> x < b ->
   TriangularMF.evaluate a b c x = Ok ((x - a) / (b - a))) /\
  (b < x -> x < c ->
   TriangularMF.evaluate a b c x = Ok ((c - x) / (c - b))).
Proof.
  intros Hab Hbc. unfold TriangularMF.evaluate.
  repeat split; intros; qcases; shape_case.
Qed.

Lemma trapezoidal_evaluate_cases a b c d x :
  a <= b -> b <= c -> c <= d ->
  ((x <= a \/ d <= x) -> TrapezoidalMF.evaluate a b c d x = Ok 0) /\
  (b <= x <= c -> a < x -> x < d -> TrapezoidalMF.evaluate a b c d x = Ok 1) /\
  (a < x -> x < b ->
   TrapezoidalMF.evaluate a b c d x = Ok ((x - a) / (b - a))) /\
  (c < x -> x < d ->
   TrapezoidalMF.evaluate a b c d x = Ok ((d - x) / (d - c))).
Proof.
  intros Hab Hbc Hcd. unfold TrapezoidalMF.evaluate.
  repeat split; intros; qcases; shape_case.
Qed.

(** C3, as amended.  A triangle with a <= b <= c returns 0 when x <= a or
    x >= c and x is not the peak b, returns 1 at x = b when a < b < c,
    returns (x-a)/(b-a) when a < x < b and (c-x)/(c-b) when b < x < c.  A
    trapezoid with a <= b <= c <= d returns 0 when x <= a or x >= d and x
    is not on the plateau [b,c], returns 1 when b <= x <= c and a < x < d,
    returns (x-a)/(b-a) when a < x < b and (d-x)/(d-c) when c < x < d.
    Nothing is said about a peak or plateau point that coincides with an
    end of the support (x = a = b, or x = c = d). *)
Theorem evaluate_cases (a b c d x : Q) :
  a <= b -> b <= c -> c <= d ->
  (((x <= a \/ c <= x) -> ~ x == b -> TriangularMF.evaluate a b c x = Ok 0) /\
   (x == b -> a < b -> b < c -> TriangularMF.evaluate a b c x = Ok 1) /\
   (a < x -> x < b ->
    TriangularMF.evaluate a b c x = Ok ((x - a) / (b - a))) /\
   (b < x -> x < c ->
    TriangularMF.evaluate a b c x = Ok ((c - x) / (c - b)))) /\
  (((x <= a \/ d <= x) -> ~ (b <= x <= c) ->
    TrapezoidalMF.evaluate a b c d x = Ok 0) /\
   (b <= x <= c -> a < x -> x < d ->
    TrapezoidalMF.evaluate a b c d x = Ok 1) /\
   (a < x -> x < b ->
    TrapezoidalMF.evaluate a b c d x = Ok ((x - a) / (b - a))) /\
   (c < x -> x < d ->
    TrapezoidalMF.evaluate a b c d x = Ok ((d - x) / (d - c)))).
Proof.
  intros Hab Hbc Hcd.
  destruct (triangular_evaluate_cases a b c x Hab Hbc) as (T0 & T1 & T2 & T3).
  destruct (trapezoidal_evaluate_cases a b c d x Hab Hbc Hcd)
    as (Z0 & Z1 & Z2 & Z3).
  repeat split; auto.
  intros Hx Hlt Hgt. apply T1; [assumption | lra | lra].
Qed.

Lemma evaluate_cases_witness :
  TriangularMF.evaluate 1 2 3 (3 # 2) = Ok (((3 # 2) - 1) / (2 - 1)) /\
  TrapezoidalMF.evaluate 0 0 1 2 (1 # 2) = Ok 1.
Proof.
  split.
  - destruct (evaluate_cases 1 2 3 3 (3 # 2)) as [(_ & _ & Hrise & _) _];
      [lra | lra | lra |].
    apply Hrise; lra.
  - destruct (evaluate_cases 0 0 1 2 (1 # 2)) as [_ (_ & Hflat & _)];
      [lra | lra | lra |].
    apply Hflat; lra.
Defined.

(** C3, as stated, reads each case on its own; on a left shoulder
    (a = b) the plateau case asks for 1 where the guard case asks for 0.
    [TrapezoidalMF("few", 0, 0, 1, 2).evaluate(0)] takes the guard. *)
Lemma plateau_case_fails_on_left_shoulder :
  TrapezoidalMF.evaluate 0 0 1 2 0 = Ok 0 /\
  ~ (forall a b c d x : Q,
        a <= b -> b <= c -> c <= d ->
        b <= x <= c -> x < d ->
        TrapezoidalMF.evaluate a b c d x = Ok 1).
Proof.
  split; [reflexivity |].
  intros H. specialize (H 0 0 1 2 0).
  assert (E : TrapezoidalMF.evaluate 0 0 1 2 0 = Ok 1) by (apply H; lra).
  discriminate E.
Qed.

(** C6.  The plateau of a shoulder trapezoid of the rule base does not
    reach its outer end: [income.high] is 0 at x = c = d = 20,000,000 and
    [dependents.few] is 0 at x = a = b = 0, although both points lie in
    [b,c].  An applicant without dependents therefore fires no rule. *)
Theorem shoulder_endpoint_degree :
  membership_functions income_var !! "high"
  = Some (TrapezoidalMF "high" 6500000 7000000 20000000 20000000) /\
  7000000 <= 20000000 <= 20000000 /\
  degree_of income_var "high" "income" {["income" := 20000000]} = Ok 0 /\
  membership_functions dependents_var !! "few"
  = Some (TrapezoidalMF "few" 0 0 1 2) /\
  0 <= 0 <= 1 /\
  degree_of dependents_var "few" "dependents" {["dependents" := 0]} = Ok 0 /\
  evaluate_credit_risk 8000000 0 8 = Ok {| risk := 100 # 2; eligibility := 100 # 2 |}.
Proof.
  repeat split; try reflexivity; try lra.
Qed.

(** C10.  Every membership function owned by one of the five variables of
    the rule base evaluates, at every x, without raising (no ramp divides
    by zero: the guard and plateau branches are taken before a zero-width
    edge could be reached) and to a degree in [0,1]. *)
Theorem rule_base_degrees_safe (v t : string) (var : FuzzyVariable)
  (mf : MembershipFunction) (x : Q) :
  variables create_credit_risk_fis !! v = Some var ->
  membership_functions var !! t = Some mf ->
  exists d, mf_evaluate mf x = Ok d /\ 0 <= d <= 1.
Proof. intros _ _. apply mf_evaluate_total. Qed.

Lemma rule_base_degrees_safe_witness :
  exists d,
    mf_evaluate (TrapezoidalMF "low" 0 0 2500000 3000000) 0 = Ok d /\
    0 <= d <= 1.
Proof.
  apply (rule_base_degrees_safe "income" "low" income_var); reflexivity.
Defined.

(** C4.  The three end-to-end scenarios of the rule base: high income,
    one dependent, good history gives risk < 40 and eligibility >= 70;
    medium income, two dependents, average history gives risk in [40,70]
    and eligibility in [40,70); low income, five dependents, poor history
    gives risk >= 70 and eligibility < 40.  The labels are the ones the
    scores are reported under. *)
Theorem end_to_end_scenarios :
  (exists r e,
      evaluate_credit_risk 8000000 1 8 = Ok {| risk := r; eligibility := e |} /\
      (r < 40 /\ 70 <= e) /\
      get_risk_level r = "Low" /\ get_eligibility_status e = "Eligible") /\
  (exists r e,
      evaluate_credit_risk 5000000 2 5 = Ok {| risk := r; eligibility := e |} /\
      (40 <= r <= 70 /\ 40 <= e < 70) /\
      get_risk_level r = "Medium" /\
      get_eligibility_status e = "Under Consideration") /\
  (exists r e,
      evaluate_credit_risk 2000000 5 2 = Ok {| risk := r; eligibility := e |} /\
      (70 <= r /\ e < 40) /\
      get_risk_level r = "High" /\ get_eligibility_status e = "Not Eligible").
Proof.
  split; [| split].
  - exists (30 # 2), (170 # 2).
    split; [vm_compute; reflexivity |]. split; [split; lra |].
    split; reflexivity.
  - exists (100 # 2), (100 # 2).
    split; [vm_compute; reflexivity |]. split; [split; lra |].
    split; reflexivity.
  - exists (170 # 2), (30 # 2).
    split; [vm_compute; reflexivity |]. split; [split; lra |].
    split; reflexivity.
Qed.

(** ** The result monad and dictionaries *)


Lemma py_getitem_ok {V : Type} (d : gmap string V) (k : string) (v : V) :
  d !! k = Some v -> py_getitem d k = Ok v.
Proof. unfold py_getitem. intros ->. reflexivity. Qed.

(** A loop that stores one computed value per key: every key of the list
    ends up bound to its value and the other keys are untouched. *)
Lemma foldM_insert (f : string -> result Q) (l : list string) :
  (forall v, v ∈ l -> returns (f v)) ->
  forall res0 : gmap string Q,
  exists res,
    foldM (fun res v => let* y := f v in Ok (<[v := y]> res)) res0 l = Ok res /\
    (forall v, v ∈ l -> exists y, f v = Ok y /\ res !! v = Some y) /\
    (forall v, v ∉ l -> res !! v = res0 !! v).
Proof.
  induction l as [| x l IH]; intros Hf res0; simpl.
  - exists res0. split; [reflexivity |]. split; [| reflexivity].
    intros v Hv. inversion Hv.
  - destruct (Hf x) as [y Hy]; [left |]. rewrite Hy. simpl.
    destruct (IH (fun v Hv => Hf v (list_elem_of_further _ _ _ Hv))
                 (<[x := y]> res0)) as (res & Hres & Hin & Hout).
    exists res. split; [exact Hres |]. split.
    + intros v Hv. destruct (decide (v ∈ l)) as [Hl | Hl]; [auto |].
      apply elem_of_cons in Hv as [-> | Hv]; [| contradiction].
      exists y. split; [exact Hy |].
      rewrite (Hout x Hl). apply lookup_insert_eq.
    + intros v Hv. apply not_elem_of_cons in Hv as [Hne Hl].
      rewrite (Hout v Hl). apply lookup_insert_ne. congruence.
Qed.

(** ** Firing strengths *)

Lemma fire_zip (rs : list FuzzyRule) (inputs : gmap string Q)
  (strengths : list Q) :
  Forall2 (fun r fs => rule_evaluate r inputs = Ok fs) rs strengths ->
  TsukamotoFIS.fire rs inputs = Ok (zip rs strengths).
Proof.
  induction 1 as [| r fs rs strengths Hr _ IH]; simpl; [reflexivity |].
  rewrite Hr. simpl. rewrite IH. reflexivity.
Qed.

(** ** One output variable *)

Lemma Qsum_pos (l : list Q) :
  Forall (fun q => 0 < q) l -> l <> [] -> 0 < Qsum l.
Proof.
  induction 1 as [| q l Hq Hl IH]; intros Hne; [congruence |].
  simpl. destruct l as [| q' l'].
  - simpl. lra.
  - assert (0 < Qsum (q' :: l')) by (apply IH; discriminate). lra.
Qed.

Lemma spec_S_cons v r fs (l : list (FuzzyRule * Q)) :
  spec_S v ((r, fs) :: l)
  = if bool_decide (consequent_var r = v) && Qlt_bool 0 fs
    then (r, fs) :: spec_S v l else spec_S v l.
Proof. reflexivity. Qed.

Lemma spec_S_positive (v : string) (rule_results : list (FuzzyRule * Q)) :
  Forall (fun q => 0 < q) (snd <$> spec_S v rule_results).
Proof.
  unfold spec_S. induction rule_results as [| [r fs] l IH]; simpl;
    [constructor |].
  destruct (bool_decide (consequent_var r = v) && Qlt_bool 0 fs) eqn:E;
    [| exact IH].
  apply andb_true_iff in E as [_ E]. apply Qlt_bool_true in E.
  constructor; assumption.
Qed.

Lemma accumulate_take fis v ws w rule fs mf :
  consequent_var rule = v -> 0 < fs ->
  consequent_mf fis rule = Some mf ->
  TsukamotoFIS.accumulate fis v (ws, w) (rule, fs)
  = Ok (ws + mf_inverse mf fs * fs, w + fs).
Proof.
  intros Hv Hfs Hmf. unfold TsukamotoFIS.accumulate.
  rewrite bool_decide_eq_true_2 by exact Hv.
  apply Qlt_bool_true in Hfs. rewrite Hfs. simpl.
  unfold consequent_mf in Hmf. rewrite Hv in Hmf.
  destruct (variables fis !! v) as [var |] eqn:Hvar; [| discriminate].
  simpl in Hmf.
  rewrite (py_getitem_ok _ _ _ Hvar). simpl.
  rewrite (py_getitem_ok _ _ _ Hmf). reflexivity.
Qed.

Lemma accumulate_skip fis v acc rule fs :
  bool_decide (consequent_var rule = v) && Qlt_bool 0 fs = false ->
  TsukamotoFIS.accumulate fis v acc (rule, fs) = Ok acc.
Proof.
  intros E. unfold TsukamotoFIS.accumulate. destruct acc. rewrite E.
  reflexivity.
Qed.

(** The inner loop computes the two sums over the fired rules. *)
Lemma foldM_accumulate fis v (rule_results : list (FuzzyRule * Q)) :
  Forall (fun rr => consequent_var (fst rr) = v ->
                    is_Some (consequent_mf fis (fst rr))) rule_results ->
  forall ws0 w0,
  exists ws w crisps,
    foldM (TsukamotoFIS.accumulate fis v) (ws0, w0) rule_results = Ok (ws, w) /\
    Forall2 (fun rr c => spec_crisp fis rr = Some c)
            (spec_S v rule_results) crisps /\
    ws == ws0 + Qsum (zip_with Qmult crisps (snd <$> spec_S v rule_results)) /\
    w == w0 + Qsum (snd <$> spec_S v rule_results).
Proof.
  induction 1 as [| [r fs] l Hr _ IH]; intros ws0 w0.
  - exists ws0, w0, []. repeat split; [constructor | simpl; lra | simpl; lra].
  - rewrite spec_S_cons. cbn [foldM]. cbn [fst] in Hr.
    destruct (bool_decide (consequent_var r = v) && Qlt_bool 0 fs) eqn:E.
    + apply andb_true_iff in E as [Ev Efs].
      apply bool_decide_eq_true in Ev. apply Qlt_bool_true in Efs.
      destruct (Hr Ev) as [mf Hmf].
      rewrite (accumulate_take _ _ _ _ _ _ _ Ev Efs Hmf). cbn [bind].
      destruct (IH (ws0 + mf_inverse mf fs * fs) (w0 + fs))
        as (ws & w & crisps & Hfold & Hcr & Hws & Hw).
      exists ws, w, (mf_inverse mf fs :: crisps).
      split; [exact Hfold |]. split; [| split].
      * constructor; [| exact Hcr].
        unfold spec_crisp. cbn [fst snd]. rewrite Hmf. reflexivity.
      * cbn [fmap list_fmap zip_with snd Qsum foldr]. rewrite Hws.
        change (foldr Qplus 0) with Qsum. ring.
      * cbn [fmap list_fmap snd Qsum foldr]. rewrite Hw.
        change (foldr Qplus 0) with Qsum. ring.
    + rewrite (accumulate_skip _ _ _ _ _ E). cbn [bind]. apply IH.
Qed.

(** The outer loop body against the specification of one output. *)
Lemma defuzzify_spec fis v var (rule_results : list (FuzzyRule * Q)) :
  variables fis !! v = Some var ->
  Forall (fun rr => consequent_var (fst rr) = v ->
                    is_Some (consequent_mf fis (fst rr))) rule_results ->
  exists y crisps,
    TsukamotoFIS.defuzzify fis v rule_results = Ok y /\
    Forall2 (fun rr c => spec_crisp fis rr = Some c)
            (spec_S v rule_results) crisps /\
    (spec_S v rule_results = [] -> y = spec_midpoint var) /\
    (spec_S v rule_results <> [] ->
     y == spec_weighted_average crisps (snd <$> spec_S v rule_results)).
Proof.
  intros Hvar Hres. unfold TsukamotoFIS.defuzzify.
  destruct (foldM_accumulate fis v rule_results Hres 0 0)
    as (ws & w & crisps & Hfold & Hcr & Hws & Hw).
  rewrite Hfold. cbn [bind].
  destruct (spec_S v rule_results) as [| rr S] eqn:HS.
  - assert (Hw0 : Qlt_bool 0 w = false).
    { apply Qlt_bool_false. simpl in Hw. lra. }
    rewrite Hw0, (py_getitem_ok _ _ _ Hvar). cbn [bind].
    exists (spec_midpoint var), crisps.
    repeat split; [exact Hcr | congruence].
  - assert (Hpos : 0 < Qsum (snd <$> rr :: S)).
    { apply Qsum_pos; [| discriminate].
      rewrite <- HS. apply spec_S_positive. }
    assert (Hw1 : Qlt_bool 0 w = true) by (apply Qlt_bool_true; lra).
    rewrite Hw1, py_div_ok by lra.
    exists (ws / w), crisps.
    split; [reflexivity |]. split; [exact Hcr |]. split; [discriminate |].
    intros _. unfold spec_weighted_average.
    rewrite Hws, Hw, !Qplus_0_l. reflexivity.
Qed.

(** Assembly keeps every output name among the declared variables. *)
Lemma assembled_outputs_declared fis :
  assembled fis -> output_variables fis ⊆ dom (variables fis).
Proof.
  induction 1 as [| fis variable is_output _ IH | fis rule _ IH]; simpl.
  - set_solver.
  - rewrite dom_insert_L. destruct is_output.
    + apply union_mono_l, IH.
    + etransitivity; [exact IH | apply union_subseteq_r].
  - exact IH.
Qed.

Lemma invariant_resolves fis (strengths : list Q) v :
  engine_invariant fis ->
  Forall (fun rr => consequent_var (fst rr) = v ->
                    is_Some (consequent_mf fis (fst rr)))
         (zip (rules fis) strengths).
Proof.
  intros [_ Hrules]. apply Forall_forall. intros [r fs] Hin _. cbn [fst].
  rewrite Forall_forall in Hrules. apply (Hrules r).
  apply (elem_of_zip_l _ _ _ _ Hin).
Qed.

(** On an engine that satisfies its invariant, [evaluate] returns when
    the antecedents do, with one defuzzified value per output variable. *)
Lemma evaluate_outputs fis (inputs : gmap string Q) (strengths : list Q) :
  engine_invariant fis ->
  Forall2 (fun r fs => rule_evaluate r inputs = Ok fs) (rules fis) strengths ->
  exists res,
    TsukamotoFIS.evaluate fis inputs = Ok res /\
    dom res = output_variables fis /\
    forall v, v ∈ output_variables fis ->
      exists var y,
        variables fis !! v = Some var /\
        TsukamotoFIS.defuzzify fis v (zip (rules fis) strengths) = Ok y /\
        res !! v = Some y.
Proof.
  intros Hinv Hfire. unfold TsukamotoFIS.evaluate.
  rewrite (fire_zip _ _ _ Hfire). cbn [bind].
  set (rr := zip (rules fis) strengths).
  assert (Hvar : forall v, v ∈ output_variables fis ->
                           exists var, variables fis !! v = Some var).
  { intros v Hv. apply (proj1 Hinv), elem_of_dom in Hv. exact Hv. }
  destruct (foldM_insert
              (fun v => TsukamotoFIS.defuzzify fis v rr)
              (elements (output_variables fis))) with (res0 := (∅ : gmap string Q))
    as (res & Hev & Hin & Hnot).
  { intros v Hv. apply elem_of_elements in Hv.
    destruct (Hvar v Hv) as [var Hv'].
    destruct (defuzzify_spec fis v var rr Hv'
                (invariant_resolves fis strengths v Hinv)) as (y & _ & Hy & _).
    exists y. exact Hy. }
  exists res. split; [exact Hev |]. split.
  - apply set_eq. intros v. rewrite elem_of_dom.
    destruct (decide (v ∈ elements (output_variables fis))) as [Hv | Hv].
    + destruct (Hin v Hv) as (y & _ & Hy). rewrite Hy.
      apply elem_of_elements in Hv. split; eauto.
    + rewrite (Hnot v Hv), lookup_empty. rewrite elem_of_elements in Hv.
      split; [intros [? ?]; discriminate | contradiction].
  - intros v Hv. destruct (Hvar v Hv) as [var Hv'].
    destruct (Hin v) as (y & Hy & Hlook); [apply elem_of_elements, Hv |].
    exists var, y. auto.
Qed.

(** C1.  On an engine that satisfies its invariant, and for inputs on
    which every rule's antecedent returns, [evaluate] returns a mapping
    defined exactly on the output variables; for each output v, with S the
    rules of consequent variable v and positive firing strength and with
    crisp the inverse of the consequent term's membership function at the
    firing strength, result[v] is the sum of crisp * firing_strength over S
    divided by the sum of firing_strength over S, and it is the midpoint of
    v's declared range when S is empty. *)
Theorem evaluate_is_weighted_average (fis : TsukamotoFIS)
  (inputs : gmap string Q) (strengths : list Q) :
  engine_invariant fis ->
  Forall2 (fun r fs => rule_evaluate r inputs = Ok fs) (rules fis) strengths ->
  exists res,
    TsukamotoFIS.evaluate fis inputs = Ok res /\
    dom res = output_variables fis /\
    forall v, v ∈ output_variables fis ->
      exists var y crisps,
        variables fis !! v = Some var /\
        res !! v = Some y /\
        Forall2 (fun rr c => spec_crisp fis rr = Some c)
                (spec_S v (zip (rules fis) strengths)) crisps /\
        (spec_S v (zip (rules fis) strengths) = [] -> y = spec_midpoint var) /\
        (spec_S v (zip (rules fis) strengths) <> [] ->
         y == spec_weighted_average crisps
                (snd <$> spec_S v (zip (rules fis) strengths))).
Proof.
  intros Hinv Hfire.
  destruct (evaluate_outputs fis inputs strengths Hinv Hfire)
    as (res & Hev & Hdom & Hres).
  exists res. split; [exact Hev |]. split; [exact Hdom |].
  intros v Hv. destruct (Hres v Hv) as (var & y & Hvar & Hdef & Hlook).
  destruct (defuzzify_spec fis v var _ Hvar
              (invariant_resolves fis strengths v Hinv))
    as (y' & crisps & Hy & Hcr & Hmid & Havg).
  assert (y' = y) as -> by congruence.
  exists var, y, crisps. auto.
Qed.

(** ** The rule base as an engine *)

Lemma credit_risk_rules :
  rules create_credit_risk_fis
  = [ mkFuzzyRule rule1_antecedent "eligibility" "eligible";
      mkFuzzyRule rule1_antecedent "risk" "low";
      mkFuzzyRule rule3_antecedent "eligibility" "under_consideration";
      mkFuzzyRule rule3_antecedent "risk" "medium";
      mkFuzzyRule rule5_antecedent "eligibility" "not_eligible";
      mkFuzzyRule rule5_antecedent "risk" "high" ].
Proof. reflexivity. Qed.

Lemma credit_risk_assembled : assembled create_credit_risk_fis.
Proof.
  unfold create_credit_risk_fis. cbv zeta.
  repeat first [apply assembled_add_rule | apply assembled_add_variable].
  apply assembled_init.
Qed.

Lemma credit_risk_outputs :
  output_variables create_credit_risk_fis = {["risk"; "eligibility"]}.
Proof.
  unfold create_credit_risk_fis. cbv zeta. simpl.
  apply set_eq. intros x. set_solver.
Qed.

Lemma credit_risk_engine_invariant : engine_invariant create_credit_risk_fis.
Proof.
  split; [apply assembled_outputs_declared, credit_risk_assembled |].
  rewrite credit_risk_rules, credit_risk_outputs.
  repeat constructor; cbn [consequent_var];
    first [set_solver | eexists; vm_compute; reflexivity].
Qed.

Lemma scenario_strengths :
  Forall2 (fun r fs =>
             rule_evaluate r
               (<["credit_history" := 8]>
                  (<["dependents" := 1]> (<["income" := 8000000]> ∅)))
             = Ok fs)
          (rules create_credit_risk_fis) [1; 1; 0; 0; 0; 0].
Proof. rewrite credit_risk_rules. repeat constructor. Qed.

Lemma evaluate_is_weighted_average_witness :
  exists res,
    TsukamotoFIS.evaluate create_credit_risk_fis
      (<["credit_history" := 8]>
         (<["dependents" := 1]> (<["income" := 8000000]> ∅)))
    = Ok res /\
    dom res = output_variables create_credit_risk_fis.
Proof.
  destruct (evaluate_is_weighted_average create_credit_risk_fis _ _
              credit_risk_engine_invariant scenario_strengths)
    as (res & Hev & Hdom & _).
  exists res. split; assumption.
Defined.

(** The engine built by [create_credit_risk_fis] has six rules, each with
    a declared output variable as consequent variable and one of its terms
    as consequent term; [add_rule] appends whatever rule it is given. *)
Lemma credit_risk_rules_resolved :
  length (rules create_credit_risk_fis) = 6%nat /\
  Forall (fun r =>
            consequent_var r ∈ dom (variables create_credit_risk_fis) /\
            consequent_var r ∈ output_variables create_credit_risk_fis /\
            exists var,
              variables create_credit_risk_fis !! consequent_var r = Some var /\
              consequent_term r ∈ dom (membership_functions var))
         (rules create_credit_risk_fis) /\
  (forall fis rule,
      rules (TsukamotoFIS.add_rule fis rule) = (rules fis ++ [rule])%list /\
      variables (TsukamotoFIS.add_rule fis rule) = variables fis /\
      output_variables (TsukamotoFIS.add_rule fis rule) = output_variables fis).
Proof.
  split; [reflexivity |]. split; [| intros; repeat split].
  destruct credit_risk_engine_invariant as [Hout Hrules].
  eapply Forall_impl; [exact Hrules |].
  intros r [Hin [mf Hmf]]. split; [apply Hout, Hin |]. split; [exact Hin |].
  unfold consequent_mf in Hmf.
  destruct (variables create_credit_risk_fis !! consequent_var r)
    as [var |] eqn:Hvar; [| discriminate].
  exists var. split; [reflexivity |].
  apply elem_of_dom. exists mf. exact Hmf.
Qed.

(** C8, as stated, has bad rules rejected while the rule base is built.
    A rule whose consequent term "extreme" is not a term of "risk" is
    accepted by [add_rule]; the missing term shows only when the rule
    fires during [evaluate]. *)
Lemma unknown_term_surfaces_at_evaluation :
  let bad := mkFuzzyRule (fun _ => Ok 1) "risk" "extreme" in
  let fis := TsukamotoFIS.add_rule create_credit_risk_fis bad in
  consequent_mf create_credit_risk_fis bad = None /\
  bad ∈ rules fis /\
  TsukamotoFIS.evaluate fis
    (<["credit_history" := 8]>
       (<["dependents" := 1]> (<["income" := 8000000]> ∅)))
  = Raise (KeyError "extreme").
Proof.
  cbv zeta. split; [reflexivity |]. split; [| vm_compute; reflexivity].
  cbn [rules TsukamotoFIS.add_rule]. apply elem_of_app. right. left.
Qed.

(** ** Range of the defuzzified value *)

(** A weighted average of crisp values taken in [lo, hi] stays in
    [lo, hi]: the inner loop keeps lo * weight_sum <= weighted_sum <=
    hi * weight_sum. *)
Lemma foldM_accumulate_bounds fis v var (lo hi : Q)
  (rule_results : list (FuzzyRule * Q)) :
  variables fis !! v = Some var ->
  (forall t mf y, membership_functions var !! t = Some mf -> 0 < y ->
                  lo <= mf_inverse mf y <= hi) ->
  Forall (fun rr => consequent_var (fst rr) = v ->
                    is_Some (consequent_mf fis (fst rr))) rule_results ->
  forall ws0 w0,
    lo * w0 <= ws0 -> ws0 <= hi * w0 -> 0 <= w0 ->
    exists ws w,
      foldM (TsukamotoFIS.accumulate fis v) (ws0, w0) rule_results = Ok (ws, w) /\
      lo * w <= ws /\ ws <= hi * w /\ 0 <= w.
Proof.
  intros Hvar Hinv. induction 1 as [| [r fs] l Hr _ IH];
    intros ws0 w0 Hlo Hhi Hw0; cbn [foldM].
  - exists ws0, w0. auto.
  - cbn [fst] in Hr.
    destruct (bool_decide (consequent_var r = v) && Qlt_bool 0 fs) eqn:E.
    + apply andb_true_iff in E as [Ev Efs].
      apply bool_decide_eq_true in Ev. apply Qlt_bool_true in Efs.
      destruct (Hr Ev) as [mf Hmf].
      rewrite (accumulate_take _ _ _ _ _ _ _ Ev Efs Hmf). cbn [bind].
      assert (Hterm : membership_functions var !! consequent_term r = Some mf).
      { unfold consequent_mf in Hmf. rewrite Ev, Hvar in Hmf. exact Hmf. }
      destruct (Hinv _ _ fs Hterm Efs) as [Hc1 Hc2].
      assert (lo * fs <= mf_inverse mf fs * fs)
        by (apply Qmult_le_compat_r; lra).
      assert (mf_inverse mf fs * fs <= hi * fs)
        by (apply Qmult_le_compat_r; lra).
      apply IH; lra.
    + rewrite (accumulate_skip _ _ _ _ _ E). cbn [bind]. apply IH; assumption.
Qed.

Lemma defuzzify_in_range fis v var (lo hi : Q)
  (rule_results : list (FuzzyRule * Q)) :
  variables fis !! v = Some var ->
  (forall t mf y, membership_functions var !! t = Some mf -> 0 < y ->
                  lo <= mf_inverse mf y <= hi) ->
  lo <= spec_midpoint var <= hi ->
  Forall (fun rr => consequent_var (fst rr) = v ->
                    is_Some (consequent_mf fis (fst rr))) rule_results ->
  forall y, TsukamotoFIS.defuzzify fis v rule_results = Ok y -> lo <= y <= hi.
Proof.
  intros Hvar Hinv Hmid Hres y. unfold TsukamotoFIS.defuzzify.
  destruct (foldM_accumulate_bounds fis v var lo hi rule_results
              Hvar Hinv Hres 0 0) as (ws & w & Hfold & Hlo & Hhi & Hw);
    [lra | lra | lra |].
  rewrite Hfold. cbn [bind].
  destruct (Qlt_bool 0 w) eqn:E.
  - apply Qlt_bool_true in E. rewrite py_div_ok by lra.
    intros [= <-]. split.
    + apply Qle_shift_div_l; assumption.
    + apply Qle_shift_div_r; assumption.
  - rewrite (py_getitem_ok _ _ _ Hvar). cbn [bind]. intros [= <-]. exact Hmid.
Qed.

(** ** Antecedents of the rule base *)

Lemma degree_of_total var term key (inputs : gmap string Q) mf x :
  membership_functions var !! term = Some mf ->
  inputs !! key = Some x ->
  exists d, degree_of var term key inputs = Ok d /\ 0 <= d <= 1.
Proof.
  intros Hmf Hx. unfold degree_of.
  rewrite (py_getitem_ok _ _ _ Hmf). cbn [bind].
  rewrite (py_getitem_ok _ _ _ Hx). cbn [bind].
  apply mf_evaluate_total.
Qed.

Lemma py_min3_unit a b c :
  0 <= a <= 1 -> 0 <= b <= 1 -> 0 <= c <= 1 -> 0 <= py_min3 a b c <= 1.
Proof. intros. unfold py_min3, py_min2. qcases; lra. Qed.

Lemma py_max3_unit a b c :
  0 <= a <= 1 -> 0 <= b <= 1 -> 0 <= c <= 1 -> 0 <= py_max3 a b c <= 1.
Proof. intros. unfold py_max3, py_max2. qcases; lra. Qed.

Ltac degree_step H :=
  match goal with
  | |- context [degree_of ?var ?term ?key ?inputs] =>
      let d := fresh "d" in
      let Hd := fresh "Hd" in
      let E := fresh "E" in
      destruct (degree_of_total var term key inputs _ _ eq_refl H)
        as (d & E & Hd);
      rewrite E; cbn [bind]
  end.

Lemma antecedents_total (inputs : gmap string Q) (income dependents credit : Q) :
  inputs !! "income" = Some income ->
  inputs !! "dependents" = Some dependents ->
  inputs !! "credit_history" = Some credit ->
  exists f1 f3 f5,
    rule1_antecedent inputs = Ok f1 /\ 0 <= f1 <= 1 /\
    rule3_antecedent inputs = Ok f3 /\ 0 <= f3 <= 1 /\
    rule5_antecedent inputs = Ok f5 /\ 0 <= f5 <= 1.
Proof.
  intros Hi Hd Hc.
  assert (H1 : exists f, rule1_antecedent inputs = Ok f /\ 0 <= f <= 1).
  { unfold rule1_antecedent. degree_step Hi. degree_step Hd. degree_step Hc.
    eexists; split; [reflexivity | apply py_min3_unit; assumption]. }
  assert (H3 : exists f, rule3_antecedent inputs = Ok f /\ 0 <= f <= 1).
  { unfold rule3_antecedent. degree_step Hi. degree_step Hd. degree_step Hc.
    eexists; split; [reflexivity | apply py_min3_unit; assumption]. }
  assert (H5 : exists f, rule5_antecedent inputs = Ok f /\ 0 <= f <= 1).
  { unfold rule5_antecedent. degree_step Hi. degree_step Hd. degree_step Hc.
    eexists; split; [reflexivity | apply py_max3_unit; assumption]. }
  destruct H1 as (f1 & ? & ?), H3 as (f3 & ? & ?), H5 as (f5 & ? & ?).
  exists f1, f3, f5. auto 10.
Qed.

(** ** Crisp values of the two output variables *)

Ltac lookup_cases H :=
  first
    [ rewrite lookup_empty in H; discriminate H
    | apply lookup_insert_Some in H;
      destruct H as [[_ <-] | [_ H]]; [| lookup_cases H] ].

Ltac crisp_case :=
  cbn [mf_inverse]; unfold TriangularMF.inverse, TrapezoidalMF.inverse;
  qcases; halves; lra.

Lemma risk_crisp_range t mf y :
  membership_functions risk_var !! t = Some mf -> 0 < y ->
  0 <= mf_inverse mf y <= 100.
Proof.
  intros H Hy.
  cbv [risk_var add_membership_function new_FuzzyVariable
       membership_functions mf_name] in H.
  lookup_cases H; crisp_case.
Qed.

Lemma eligibility_crisp_range t mf y :
  membership_functions eligibility_var !! t = Some mf -> 0 < y ->
  0 <= mf_inverse mf y <= 100.
Proof.
  intros H Hy.
  cbv [eligibility_var add_membership_function new_FuzzyVariable
       membership_functions mf_name] in H.
  lookup_cases H; crisp_case.
Qed.

Lemma credit_risk_output_range (strengths : list Q)
  (v : string) (var : FuzzyVariable) (y : Q) :
  variables create_credit_risk_fis !! v = Some var ->
  (forall t mf y, membership_functions var !! t = Some mf -> 0 < y ->
                  0 <= mf_inverse mf y <= 100) ->
  0 <= spec_midpoint var <= 100 ->
  TsukamotoFIS.defuzzify create_credit_risk_fis v
    (zip (rules create_credit_risk_fis) strengths) = Ok y ->
  0 <= y <= 100.
Proof.
  intros Hvar Hcrisp Hmid Hdef.
  apply (defuzzify_in_range create_credit_risk_fis v var 0 100 _
           Hvar Hcrisp Hmid
           (invariant_resolves _ strengths v credit_risk_engine_invariant)
           y Hdef).
Qed.

(** C5.  For every income, every integer number of dependents >= 0 and
    every credit-history rating in [0,10], [evaluate_credit_risk] returns
    a record whose risk and eligibility both lie in [0,100]. *)
Theorem evaluate_credit_risk_range (income : Q) (dependents : Z)
  (credit_history_rating : Q) :
  (0 <= dependents)%Z ->
  0 <= credit_history_rating <= 10 ->
  exists r e,
    evaluate_credit_risk income (inject_Z dependents) credit_history_rating
    = Ok {| risk := r; eligibility := e |} /\
    0 <= r <= 100 /\ 0 <= e <= 100.
Proof.
  intros _ _. unfold evaluate_credit_risk. cbv zeta.
  set (inputs := <["credit_history" := credit_history_rating]> _).
  destruct (antecedents_total inputs income (inject_Z dependents)
              credit_history_rating)
    as (f1 & f3 & f5 & H1 & _ & H3 & _ & H5 & _); [reflexivity .. |].
  assert (Hfire : Forall2 (fun r fs => rule_evaluate r inputs = Ok fs)
                    (rules create_credit_risk_fis) [f1; f1; f3; f3; f5; f5]).
  { rewrite credit_risk_rules. repeat constructor; assumption. }
  destruct (evaluate_outputs _ inputs _ credit_risk_engine_invariant Hfire)
    as (res & Hev & _ & Hres).
  rewrite Hev. cbn [bind].
  destruct (Hres "risk") as (rv & r & Hrv & Hr & Hlr);
    [rewrite credit_risk_outputs; set_solver |].
  destruct (Hres "eligibility") as (ev & e & Hevar & He & Hle);
    [rewrite credit_risk_outputs; set_solver |].
  rewrite (py_getitem_ok _ _ _ Hlr). cbn [bind].
  rewrite (py_getitem_ok _ _ _ Hle). cbn [bind].
  exists r, e. split; [reflexivity |].
  assert (rv = risk_var) as ->.
  { assert (variables create_credit_risk_fis !! "risk" = Some risk_var)
      by reflexivity. congruence. }
  assert (ev = eligibility_var) as ->.
  { assert (variables create_credit_risk_fis !! "eligibility"
            = Some eligibility_var) by reflexivity. congruence. }
  split.
  - apply (credit_risk_output_range [f1; f1; f3; f3; f5; f5]
             "risk" risk_var r Hrv
             risk_crisp_range); [vm_compute; split; discriminate | exact Hr].
  - apply (credit_risk_output_range [f1; f1; f3; f3; f5; f5]
             "eligibility" eligibility_var e
             Hevar eligibility_crisp_range);
      [vm_compute; split; discriminate | exact He].
Qed.

Lemma evaluate_credit_risk_range_witness :
  exists r e,
    evaluate_credit_risk 6800000 (inject_Z 0) 10
    = Ok {| risk := r; eligibility := e |} /\
    0 <= r <= 100 /\ 0 <= e <= 100.
Proof.
  apply (evaluate_credit_risk_range 6800000 0 10); [lia | lra].
Defined.

(** ** Rule order *)










(** ** Membership curves *)

(** The loop over a variable's terms binds every term to its degree and
    leaves the other keys of the point alone. *)
Lemma foldM_degrees (x : Q) (l : list (string * MembershipFunction)) :
  NoDup (l.*1) ->
  forall p0 : gmap string Q,
  exists p,
    foldM (fun point '(mf_name, mf) =>
             let* d := mf_evaluate mf x in Ok (<[mf_name := d]> point)) p0 l
    = Ok p /\
    (forall t mf, (t, mf) ∈ l ->
                  exists d, mf_evaluate mf x = Ok d /\ p !! t = Some d) /\
    (forall t, t ∉ l.*1 -> p !! t = p0 !! t).
Proof.
  induction l as [| [n mf0] l IH]; intros Hnd p0; cbn [foldM].
  - exists p0. split; [reflexivity |]. split; [| reflexivity].
    intros t mf Hin. inversion Hin.
  - cbn [fmap list_fmap fst] in Hnd. apply NoDup_cons in Hnd as [Hn Hnd].
    destruct (mf_evaluate_total mf0 x) as (d0 & Hd0 & _).
    rewrite Hd0. cbn [bind].
    destruct (IH Hnd (<[n := d0]> p0)) as (p & Hp & Hin & Hout).
    exists p. split; [exact Hp |]. split.
    + intros t mf Ht. apply elem_of_cons in Ht as [[= -> ->] | Ht].
      * exists d0. split; [exact Hd0 |].
        rewrite (Hout n Hn). apply lookup_insert_eq.
      * apply (Hin t mf Ht).
    + intros t Ht. cbn [fmap list_fmap fst] in Ht.
      apply not_elem_of_cons in Ht as [Hne Ht].
      rewrite (Hout t Ht). apply lookup_insert_ne. congruence.
Qed.

Lemma curve_point_total (variable : FuzzyVariable) (x : Q) :
  exists p,
    curve_point variable x = Ok p /\
    (membership_functions variable !! "x" = None -> p !! "x" = Some x) /\
    (forall t mf, membership_functions variable !! t = Some mf ->
                  exists d, mf_evaluate mf x = Ok d /\ p !! t = Some d).
Proof.
  unfold curve_point.
  destruct (foldM_degrees x (map_to_list (membership_functions variable))
              (NoDup_fst_map_to_list _) {["x" := x]})
    as (p & Hp & Hin & Hout).
  exists p. split; [exact Hp |]. split.
  - intros Hx. rewrite Hout; [apply lookup_singleton_eq |].
    intros Hin'. apply list_elem_of_fmap in Hin' as ([t mf] & Ht & Hin').
    apply elem_of_map_to_list in Hin'. cbn [fst] in Ht. congruence.
  - intros t mf Ht. apply Hin. apply elem_of_map_to_list. exact Ht.
Qed.

(** The loop over the samples appends one point per sample. *)
Lemma foldM_points (variable : FuzzyVariable) (xs : list Q) :
  forall data0,
  exists pts,
    foldM (fun data x_val =>
             let* point := curve_point variable x_val in
             Ok ((data ++ [point])%list)) data0 xs
    = Ok ((data0 ++ pts)%list) /\
    Forall2 (fun x p => curve_point variable x = Ok p) xs pts.
Proof.
  induction xs as [| x xs IH]; intros data0; cbn [foldM].
  - exists []. rewrite app_nil_r. split; [reflexivity | constructor].
  - destruct (curve_point_total variable x) as (p & Hp & _).
    rewrite Hp. cbn [bind].
    destruct (IH ((data0 ++ [p])%list)) as (pts & Hpts & Hall).
    exists (p :: pts). rewrite Hpts, <- app_assoc.
    split; [reflexivity | constructor; assumption].
Qed.

(** For at least two samples, [linspace] returns [num] evenly spaced
    points, the last one being [stop] itself. *)
Lemma linspace_samples (start stop : Q) (num : Z) :
  (2 <= num)%Z ->
  exists xs,
    linspace start stop num = Ok xs /\
    length xs = Z.to_nat num /\
    (forall i, (i < Z.to_nat num)%nat ->
       exists x, xs !! i = Some x /\
         x == start + inject_Z (Z.of_nat i)
                      * ((stop - start) / inject_Z (num - 1))) /\
    xs !! pred (Z.to_nat num) = Some stop.
Proof.
  intros Hnum. unfold linspace.
  assert (E0 : (num <? 0)%Z = false) by (apply Z.ltb_ge; lia).
  assert (E1 : (0 <? num - 1)%Z = true) by (apply Z.ltb_lt; lia).
  assert (E2 : (1 <? num)%Z = true) by (apply Z.ltb_lt; lia).
  rewrite E0, E1, E2. cbv zeta.
  set (step := (stop - start) / inject_Z (num - 1)).
  set (y := (fun v => v + start) <$> _).
  assert (Hlen : length y = Z.to_nat num).
  { unfold y. rewrite !length_fmap. apply length_seqZ. }
  assert (Hy : forall i, (i < Z.to_nat num)%nat ->
                 y !! i = Some (inject_Z (Z.of_nat i) * step + start)).
  { intros i Hi. unfold y. rewrite !list_lookup_fmap.
    rewrite lookup_seqZ_lt by lia. reflexivity. }
  assert (Hdiv : ~ inject_Z (num - 1) == 0).
  { unfold Qeq, inject_Z. simpl. lia. }
  exists (set_last y stop). split; [reflexivity |].
  unfold set_last. rewrite length_insert, Hlen.
  split; [reflexivity |]. split.
  - intros i Hi. destruct (decide (i = pred (Z.to_nat num))) as [-> | Hne].
    + exists stop. split; [apply list_lookup_insert_eq; lia |].
      replace (Z.of_nat (pred (Z.to_nat num))) with (num - 1)%Z by lia.
      unfold step. field. exact Hdiv.
    + exists (inject_Z (Z.of_nat i) * step + start).
      split; [| ring].
      rewrite list_lookup_insert_ne by congruence. apply Hy, Hi.
  - apply list_lookup_insert_eq. lia.
Qed.

Lemma credit_risk_variable_names (variable_name : string) :
  variable_name ∈ dom (variables create_credit_risk_fis) <->
  variable_name ∈ ["income"; "dependents"; "credit_history"; "risk";
                   "eligibility"].
Proof.
  cbv [create_credit_risk_fis TsukamotoFIS.add_rule TsukamotoFIS.add_variable
       TsukamotoFIS.init variables].
  rewrite !dom_insert, dom_empty, !elem_of_union, !elem_of_singleton,
    !elem_of_cons, elem_of_nil, elem_of_empty.
  cbn [name income_var dependents_var credit_history_var risk_var
       eligibility_var add_membership_function new_FuzzyVariable].
  tauto.
Qed.

Lemma credit_risk_variable_known (variable_name : string) :
  variable_name ∈ ["income"; "dependents"; "credit_history"; "risk";
                   "eligibility"] ->
  exists var,
    variables create_credit_risk_fis !! variable_name = Some var /\
    membership_functions var !! "x" = None /\
    fst (range var) < snd (range var).
Proof.
  rewrite !elem_of_cons, elem_of_nil.
  intros [-> | [-> | [-> | [-> | [-> | []]]]]].
  - exists income_var. repeat split; reflexivity.
  - exists dependents_var. repeat split; reflexivity.
  - exists credit_history_var. repeat split; reflexivity.
  - exists risk_var. repeat split; reflexivity.
  - exists eligibility_var. repeat split; reflexivity.
Qed.

(** On a known variable the helper returns unless [linspace] rejects a
    negative sample count. *)
Lemma curve_known_variable (variable_name : string) (num_points : Z) :
  variable_name ∈ dom (variables create_credit_risk_fis) ->
  (exists data,
      generate_membership_function_data variable_name num_points = Ok data) \/
  (exists rest,
      generate_membership_function_data variable_name num_points
      = Raise (ValueError ("Number of samples, " +:+ rest))).
Proof.
  intros Hin. unfold generate_membership_function_data. cbv zeta.
  rewrite bool_decide_eq_true_2 by exact Hin.
  apply elem_of_dom in Hin as [var Hvar].
  rewrite (py_getitem_ok _ _ _ Hvar). cbn [bind].
  destruct (range var) as [range_min range_max].
  unfold linspace. destruct (num_points <? 0)%Z; cbn [bind].
  - right. eexists. reflexivity.
  - left. match goal with |- context [foldM _ [] ?xs] =>
            destruct (foldM_points var xs []) as (pts & Hpts & _) end.
    rewrite Hpts. eexists. reflexivity.
Qed.

(** C9, as amended.  [generate_membership_function_data] fails with the
    unknown-variable error exactly when the name is not one of the five
    variables.  For a known variable and at least two points it returns
    exactly [num_points] points, one per sample x; the samples increase
    strictly, the first is the range minimum and the last the range
    maximum; each point maps "x" to its sample and every term of the
    variable to that term's degree at the sample. *)
Theorem membership_curve_contract (variable_name : string) (num_points : Z) :
  (generate_membership_function_data variable_name num_points
   = Raise (ValueError ("Variable " +:+ variable_name +:+ " not found in FIS"))
   <-> variable_name ∉ ["income"; "dependents"; "credit_history"; "risk";
                        "eligibility"]) /\
  (variable_name ∈ ["income"; "dependents"; "credit_history"; "risk";
                    "eligibility"] ->
   (2 <= num_points)%Z ->
   exists var xs data,
     variables create_credit_risk_fis !! variable_name = Some var /\
     generate_membership_function_data variable_name num_points = Ok data /\
     length data = Z.to_nat num_points /\
     Forall2 (fun x p =>
                p !! "x" = Some x /\
                forall t mf, membership_functions var !! t = Some mf ->
                             exists d, mf_evaluate mf x = Ok d /\ p !! t = Some d)
             xs data /\
     (exists x0, head xs = Some x0 /\ x0 == fst (range var)) /\
     last xs = Some (snd (range var)) /\
     (forall i j xi xj, (i < j)%nat ->
                        xs !! i = Some xi -> xs !! j = Some xj -> xi < xj)).
Proof.
  split.
  - rewrite <- credit_risk_variable_names. split.
    + intros Hraise Hin.
      destruct (curve_known_variable variable_name num_points Hin)
        as [[data Hd] | [rest Hr]]; rewrite Hraise in *; discriminate.
    + intros Hout. unfold generate_membership_function_data. cbv zeta.
      rewrite bool_decide_eq_false_2 by exact Hout. reflexivity.
  - intros Hin Hnum.
    destruct (credit_risk_variable_known variable_name Hin)
      as (var & Hvar & Hx & Hrange).
    apply credit_risk_variable_names in Hin.
    unfold generate_membership_function_data. cbv zeta.
    rewrite bool_decide_eq_true_2 by exact Hin.
    rewrite (py_getitem_ok _ _ _ Hvar). cbn [bind].
    revert Hrange. destruct (range var) as [range_min range_max] eqn:Hr.
    cbn [fst snd]. intros Hrange.
    destruct (linspace_samples range_min range_max num_points Hnum)
      as (xs & Hlin & Hlen & Hsamples & Hlast).
    rewrite Hlin. cbn [bind].
    destruct (foldM_points var xs []) as (pts & Hpts & Hall).
    rewrite Hpts, app_nil_l.
    exists var, xs, pts. rewrite Hr. cbn [fst snd].
    split; [exact Hvar |]. split; [reflexivity |].
    split; [rewrite <- (Forall2_length _ _ _ Hall); exact Hlen |].
    split; [| split; [| split]].
    + eapply Forall2_impl; [exact Hall |]. intros x p Hp.
      destruct (curve_point_total var x) as (p' & Hp' & Hpx & Hterms).
      assert (p' = p) as -> by congruence. auto.
    + destruct (Hsamples 0%nat) as (x0 & H0 & Hx0); [lia |].
      exists x0. split; [rewrite head_lookup; exact H0 |].
      rewrite Hx0. change (inject_Z (Z.of_nat 0)) with 0. ring.
    + rewrite last_lookup, Hlen. exact Hlast.
    + intros i j xi xj Hij Hi Hj.
      assert (Hjn : (j < Z.to_nat num_points)%nat).
      { rewrite <- Hlen. apply lookup_lt_is_Some. eauto. }
      destruct (Hsamples i) as (xi' & Hi' & Exi); [lia |].
      destruct (Hsamples j) as (xj' & Hj' & Exj); [exact Hjn |].
      assert (xi' = xi) as -> by congruence.
      assert (xj' = xj) as -> by congruence.
      rewrite Exi, Exj.
      assert (Hstep : 0 < (range_max - range_min) / inject_Z (num_points - 1)).
      { apply Qlt_shift_div_l; [| lra].
        unfold Qlt, inject_Z. simpl. lia. }
      assert (Hq : inject_Z (Z.of_nat i) < inject_Z (Z.of_nat j)).
      { rewrite <- Zlt_Qlt. lia. }
      set (step := (range_max - range_min) / inject_Z (num_points - 1)) in *.
      assert (0 < (inject_Z (Z.of_nat j) - inject_Z (Z.of_nat i)) * step)
        by (apply Qmult_lt_0_compat; lra).
      lra.
Qed.

Lemma membership_curve_contract_witness :
  exists var xs data,
    variables create_credit_risk_fis !! "income" = Some var /\
    generate_membership_function_data "income" 100 = Ok data /\
    length data = 100%nat /\
    Forall2 (fun x p =>
               p !! "x" = Some x /\
               forall t mf, membership_functions var !! t = Some mf ->
                            exists d, mf_evaluate mf x = Ok d /\ p !! t = Some d)
            xs data /\
    (exists x0, head xs = Some x0 /\ x0 == fst (range var)) /\
    last xs = Some (snd (range var)) /\
    (forall i j xi xj, (i < j)%nat ->
                       xs !! i = Some xi -> xs !! j = Some xj -> xi < xj).
Proof.
  apply (proj2 (membership_curve_contract "income" 100)).
  - rewrite !elem_of_cons. left. reflexivity.
  - lia.
Defined.

(** C9, as stated, promises the range maximum as last x for every
    [num_points].  With a single point the only sample is the range
    minimum: [generate_membership_function_data("income", 1)] is one point
    at x = 0, not at 20,000,000. *)
Lemma single_point_curve_misses_range_max :
  exists p,
    generate_membership_function_data "income" 1 = Ok [p] /\
    p !! "x" = Some 0 /\
    range income_var = (0, 20000000) /\
    ~ 0 == 20000000.
Proof.
  eexists. split; [vm_compute; reflexivity |].
  split; [reflexivity |]. split; [reflexivity | discriminate].
Qed.

(** * Further properties of the engine and of its callers *)

(** ** Shape of the membership functions *)










(** ** Rules that do not count *)

Lemma foldM_app {A B : Type} (f : B -> A -> result B) (acc : B)
  (l : list A) (x : A) :
  foldM f acc (l ++ [x]) = let* acc' := foldM f acc l in f acc' x.
Proof.
  revert acc. induction l as [| y l IH]; intros acc; cbn [foldM app bind].
  - destruct (f acc x); reflexivity.
  - destruct (f acc y) as [acc' | e]; cbn [bind]; [apply IH | reflexivity].
Qed.

Lemma foldM_ext_in {A B : Type} (f g : B -> A -> result B) (l : list A) :
  (forall acc x, x ∈ l -> f acc x = g acc x) ->
  forall acc, foldM f acc l = foldM g acc l.
Proof.
  induction l as [| x l IH]; intros Hfg acc; cbn [foldM]; [reflexivity |].
  rewrite (Hfg acc x) by left.
  destruct (g acc x) as [acc' | e]; cbn [bind]; [| reflexivity].
  apply IH. intros acc0 y Hy. apply Hfg. right. exact Hy.
Qed.

Lemma fire_app (rs : list FuzzyRule) (r : FuzzyRule) (inputs : gmap string Q)
  (fs : Q) :
  rule_evaluate r inputs = Ok fs ->
  TsukamotoFIS.fire (rs ++ [r]) inputs
  = let* rr := TsukamotoFIS.fire rs inputs in Ok (rr ++ [(r, fs)])%list.
Proof.
  intros Hr. induction rs as [| x rs IH]; cbn [TsukamotoFIS.fire app].
  - rewrite Hr. reflexivity.
  - destruct (rule_evaluate x inputs) as [fx | e]; cbn [bind]; [| reflexivity].
    rewrite IH.
    destruct (TsukamotoFIS.fire rs inputs) as [rr | e]; reflexivity.
Qed.

(** X6.  A rule that names a variable outside the output set, or whose
    antecedent returns a strength <= 0, has no effect on [evaluate],
    whatever term it names: appending it with [add_rule] leaves the outcome
    (mapping or exception) as it was. *)
Theorem add_rule_without_effect (fis : TsukamotoFIS) (r : FuzzyRule)
  (inputs : gmap string Q) (fs : Q) :
  rule_evaluate r inputs = Ok fs ->
  consequent_var r ∉ output_variables fis \/ fs <= 0 ->
  TsukamotoFIS.evaluate (TsukamotoFIS.add_rule fis r) inputs
  = TsukamotoFIS.evaluate fis inputs.
Proof.
  intros Hr Hidle. unfold TsukamotoFIS.evaluate.
  cbn [rules output_variables TsukamotoFIS.add_rule].
  rewrite (fire_app _ _ _ _ Hr).
  destruct (TsukamotoFIS.fire (rules fis) inputs) as [rr | e]; cbn [bind];
    [| reflexivity].
  apply foldM_ext_in. intros res v Hv. apply elem_of_elements in Hv.
  assert (Hskip : bool_decide (consequent_var r = v) && Qlt_bool 0 fs = false).
  { destruct Hidle as [Hout | Hfs].
    - rewrite bool_decide_eq_false_2; [reflexivity | congruence].
    - apply andb_false_iff. right. apply Qlt_bool_false. exact Hfs. }
  assert (Hdef : TsukamotoFIS.defuzzify (TsukamotoFIS.add_rule fis r) v
                   (rr ++ [(r, fs)])
                 = TsukamotoFIS.defuzzify fis v rr).
  { unfold TsukamotoFIS.defuzzify. rewrite foldM_app.
    change (TsukamotoFIS.accumulate (TsukamotoFIS.add_rule fis r) v)
      with (TsukamotoFIS.accumulate fis v).
    destruct (foldM (TsukamotoFIS.accumulate fis v) (0, 0) rr)
      as [[ws w] | e]; cbn [bind]; [| reflexivity].
    rewrite (accumulate_skip _ _ _ _ _ Hskip). reflexivity. }
  rewrite Hdef. reflexivity.
Qed.

Lemma add_rule_without_effect_witness :
  TsukamotoFIS.evaluate
    (TsukamotoFIS.add_rule create_credit_risk_fis
       (mkFuzzyRule (fun _ => Ok 0) "risk" "extreme"))
    (<["credit_history" := 8]>
       (<["dependents" := 1]> (<["income" := 8000000]> ∅)))
  = TsukamotoFIS.evaluate create_credit_risk_fis
      (<["credit_history" := 8]>
         (<["dependents" := 1]> (<["income" := 8000000]> ∅))).
Proof.
  apply (add_rule_without_effect create_credit_risk_fis
           (mkFuzzyRule (fun _ => Ok 0) "risk" "extreme") _ 0);
    [reflexivity | right; lra].
Defined.

Lemma foldM_accumulate_idle fis v (l : list (FuzzyRule * Q)) :
  Forall (fun rr => snd rr <= 0) l ->
  forall acc, foldM (TsukamotoFIS.accumulate fis v) acc l = Ok acc.
Proof.
  induction 1 as [| [r fs] l Hfs _ IH]; intros acc; cbn [foldM];
    [reflexivity |].
  rewrite accumulate_skip; [apply IH |].
  apply andb_false_iff. right. apply Qlt_bool_false. exact Hfs.
Qed.

(** X7.  On an engine put together with [add_variable] and [add_rule] alone,
    inputs on which no rule fires give every output variable the midpoint
    of its range: the fallback never misses a variable, and rules naming
    unknown variables or terms do no harm as long as they do not fire. *)
Theorem assembled_idle_midpoints (fis : TsukamotoFIS)
  (inputs : gmap string Q) (strengths : list Q) :
  assembled fis ->
  Forall2 (fun r fs => rule_evaluate r inputs = Ok fs /\ fs <= 0)
          (rules fis) strengths ->
  exists res,
    TsukamotoFIS.evaluate fis inputs = Ok res /\
    dom res = output_variables fis /\
    forall v, v ∈ output_variables fis ->
      exists var, variables fis !! v = Some var /\
                  res !! v = Some (spec_midpoint var).
Proof.
  intros Hasm Hfire. unfold TsukamotoFIS.evaluate.
  rewrite (fire_zip _ _ strengths)
    by (eapply Forall2_impl; [exact Hfire | intros ? ? [? _]; assumption]).
  cbn [bind].
  assert (Hidle : Forall (fun rr : FuzzyRule * Q => snd rr <= 0)
                    (zip (rules fis) strengths)).
  { clear Hasm. induction Hfire as [| r fs rs ss [_ Hfs] _ IH]; cbn [zip zip_with];
      constructor; assumption. }
  assert (Hdef : forall v, v ∈ output_variables fis ->
            exists var, variables fis !! v = Some var /\
              TsukamotoFIS.defuzzify fis v (zip (rules fis) strengths)
              = Ok (spec_midpoint var)).
  { intros v Hv. apply (assembled_outputs_declared fis Hasm) in Hv.
    apply elem_of_dom in Hv as [var Hvar]. exists var. split; [exact Hvar |].
    unfold TsukamotoFIS.defuzzify.
    rewrite (foldM_accumulate_idle fis v _ Hidle). cbn [bind].
    rewrite (py_getitem_ok _ _ _ Hvar). reflexivity. }
  destruct (foldM_insert
              (fun v => TsukamotoFIS.defuzzify fis v (zip (rules fis) strengths))
              (elements (output_variables fis))) with (res0 := (∅ : gmap string Q))
    as (res & Hev & Hin & Hnot).
  { intros v Hv. apply elem_of_elements in Hv.
    destruct (Hdef v Hv) as (var & _ & Hd). eexists. exact Hd. }
  exists res. split; [exact Hev |]. split.
  - apply set_eq. intros v. rewrite elem_of_dom.
    destruct (decide (v ∈ elements (output_variables fis))) as [Hv | Hv].
    + destruct (Hin v Hv) as (y & _ & Hy). rewrite Hy.
      apply elem_of_elements in Hv. split; eauto.
    + rewrite (Hnot v Hv), lookup_empty. rewrite elem_of_elements in Hv.
      split; [intros [? ?]; discriminate | contradiction].
  - intros v Hv. destruct (Hdef v Hv) as (var & Hvar & Hd).
    destruct (Hin v) as (y & Hy & Hlook); [apply elem_of_elements, Hv |].
    exists var. split; [exact Hvar |]. congruence.
Qed.

Lemma assembled_idle_midpoints_witness :
  exists res,
    TsukamotoFIS.evaluate create_credit_risk_fis
      (<["credit_history" := 8]>
         (<["dependents" := 0]> (<["income" := 8000000]> ∅))) = Ok res /\
    dom res = output_variables create_credit_risk_fis /\
    forall v, v ∈ output_variables create_credit_risk_fis ->
      exists var, variables create_credit_risk_fis !! v = Some var /\
                  res !! v = Some (spec_midpoint var).
Proof.
  apply (assembled_idle_midpoints create_credit_risk_fis _ [0; 0; 0; 0; 0; 0]
           credit_risk_assembled).
  rewrite credit_risk_rules.
  repeat constructor; discriminate.
Defined.

(** ** The rule base in closed form *)

Lemma accumulate_resolved fis v acc r fs mf :
  consequent_var r = v ->
  consequent_mf fis r = Some mf ->
  TsukamotoFIS.accumulate fis v acc (r, fs)
  = Ok (if Qlt_bool 0 fs
        then (fst acc + mf_inverse mf fs * fs, snd acc + fs)
        else acc).
Proof.
  intros Hv Hmf. destruct acc as [ws w]. destruct (Qlt_bool 0 fs) eqn:E.
  - apply Qlt_bool_true in E. apply accumulate_take; assumption.
  - apply accumulate_skip. rewrite E. apply andb_false_r.
Qed.

Lemma accumulate_other fis v acc r fs :
  consequent_var r <> v ->
  TsukamotoFIS.accumulate fis v acc (r, fs) = Ok acc.
Proof.
  intros Hv. apply accumulate_skip.
  rewrite bool_decide_eq_false_2 by exact Hv. reflexivity.
Qed.

(** What each output's inner loop leaves in [(weighted_sum, weight_sum)]
    when the three antecedents return f1, f3 and f5. *)
Lemma credit_risk_sums (f1 f3 f5 : Q) :
  foldM (TsukamotoFIS.accumulate create_credit_risk_fis "risk") (0, 0)
        (zip (rules create_credit_risk_fis) [f1; f1; f3; f3; f5; f5])
  = Ok (gain (TrapezoidalMF "high" 60 70 100 100) f5
          (gain (TriangularMF "medium" 30 50 70) f3
             (gain (TrapezoidalMF "low" 0 0 30 40) f1 (0, 0)))) /\
  foldM (TsukamotoFIS.accumulate create_credit_risk_fis "eligibility") (0, 0)
        (zip (rules create_credit_risk_fis) [f1; f1; f3; f3; f5; f5])
  = Ok (gain (TrapezoidalMF "not_eligible" 0 0 30 40) f5
          (gain (TriangularMF "under_consideration" 30 50 70) f3
             (gain (TrapezoidalMF "eligible" 60 70 100 100) f1 (0, 0)))).
Proof.
  rewrite credit_risk_rules. cbn [zip zip_with foldM]. split.
  - rewrite accumulate_other by discriminate. cbn [bind].
    rewrite (accumulate_resolved _ _ _ _ _ (TrapezoidalMF "low" 0 0 30 40))
      by reflexivity. cbn [bind].
    rewrite accumulate_other by discriminate. cbn [bind].
    rewrite (accumulate_resolved _ _ _ _ _ (TriangularMF "medium" 30 50 70))
      by reflexivity. cbn [bind].
    rewrite accumulate_other by discriminate. cbn [bind].
    rewrite (accumulate_resolved _ _ _ _ _ (TrapezoidalMF "high" 60 70 100 100))
      by reflexivity. reflexivity.
  - rewrite (accumulate_resolved _ _ _ _ _ (TrapezoidalMF "eligible" 60 70 100 100))
      by reflexivity. cbn [bind].
    rewrite accumulate_other by discriminate. cbn [bind].
    rewrite (accumulate_resolved _ _ _ _ _
               (TriangularMF "under_consideration" 30 50 70))
      by reflexivity. cbn [bind].
    rewrite accumulate_other by discriminate. cbn [bind].
    rewrite (accumulate_resolved _ _ _ _ _ (TrapezoidalMF "not_eligible" 0 0 30 40))
      by reflexivity. cbn [bind].
    rewrite accumulate_other by discriminate. reflexivity.
Qed.

Lemma gain_sums (mf : MembershipFunction) (fs : Q) (acc : Q * Q) :
  0 <= fs ->
  fst (gain mf fs acc) == fst acc + mf_inverse mf fs * fs /\
  snd (gain mf fs acc) == snd acc + fs.
Proof.
  intros Hfs. unfold gain. destruct (Qlt_bool 0 fs) eqn:E; cbn [fst snd].
  - split; reflexivity.
  - apply Qlt_bool_false in E. assert (H0 : fs == 0) by lra.
    generalize (mf_inverse mf fs). intros t. rewrite H0. split; ring.
Qed.

(** The two defuzzified values of the rule base, given the three
    firing strengths. *)
Lemma credit_risk_defuzzify (f1 f3 f5 : Q) :
  0 <= f1 -> 0 <= f3 -> 0 <= f5 ->
  exists r e,
    TsukamotoFIS.defuzzify create_credit_risk_fis "risk"
      (zip (rules create_credit_risk_fis) [f1; f1; f3; f3; f5; f5]) = Ok r /\
    TsukamotoFIS.defuzzify create_credit_risk_fis "eligibility"
      (zip (rules create_credit_risk_fis) [f1; f1; f3; f3; f5; f5]) = Ok e /\
    ((0 < f1 + f3 + f5 /\
      r == (mf_inverse (TrapezoidalMF "low" 0 0 30 40) f1 * f1
            + mf_inverse (TriangularMF "medium" 30 50 70) f3 * f3
            + mf_inverse (TrapezoidalMF "high" 60 70 100 100) f5 * f5)
           / (f1 + f3 + f5) /\
      e == (mf_inverse (TrapezoidalMF "eligible" 60 70 100 100) f1 * f1
            + mf_inverse (TriangularMF "under_consideration" 30 50 70) f3 * f3
            + mf_inverse (TrapezoidalMF "not_eligible" 0 0 30 40) f5 * f5)
           / (f1 + f3 + f5)) \/
     (f1 + f3 + f5 == 0 /\ r == 50 /\ e == 50)).
Proof.
  intros H1 H3 H5. unfold TsukamotoFIS.defuzzify.
  destruct (credit_risk_sums f1 f3 f5) as [Hr He]. rewrite Hr, He.
  cbn [bind]. clear Hr He.
  set (low := TrapezoidalMF "low" 0 0 30 40).
  set (med := TriangularMF "medium" 30 50 70).
  set (high := TrapezoidalMF "high" 60 70 100 100).
  set (eli := TrapezoidalMF "eligible" 60 70 100 100).
  set (und := TriangularMF "under_consideration" 30 50 70).
  set (nel := TrapezoidalMF "not_eligible" 0 0 30 40).
  pose proof (gain_sums low f1 (0, 0) H1) as [A1 B1].
  pose proof (gain_sums med f3 (gain low f1 (0, 0)) H3) as [A3 B3].
  pose proof (gain_sums high f5 (gain med f3 (gain low f1 (0, 0))) H5)
    as [A5 B5].
  pose proof (gain_sums eli f1 (0, 0) H1) as [C1 D1].
  pose proof (gain_sums und f3 (gain eli f1 (0, 0)) H3) as [C3 D3].
  pose proof (gain_sums nel f5 (gain und f3 (gain eli f1 (0, 0))) H5)
    as [C5 D5].
  destruct (gain high f5 _) as [ws w]. destruct (gain nel f5 _) as [ws' w'].
  cbn [fst snd] in *.
  assert (Hw : w == f1 + f3 + f5) by (rewrite B5, B3, B1; ring).
  assert (Hw' : w' == f1 + f3 + f5) by (rewrite D5, D3, D1; ring).
  assert (Hws : ws == mf_inverse low f1 * f1 + mf_inverse med f3 * f3
                      + mf_inverse high f5 * f5)
    by (rewrite A5, A3, A1; ring).
  assert (Hws' : ws' == mf_inverse eli f1 * f1 + mf_inverse und f3 * f3
                        + mf_inverse nel f5 * f5)
    by (rewrite C5, C3, C1; ring).
  destruct (Qlt_bool 0 w) eqn:E.
  - apply Qlt_bool_true in E.
    assert (E' : Qlt_bool 0 w' = true) by (apply Qlt_bool_true; lra).
    rewrite E', !py_div_ok by lra.
    exists (ws / w), (ws' / w'). split; [reflexivity |]. split; [reflexivity |].
    left. split; [lra |]. split.
    + rewrite Hws, Hw. reflexivity.
    + rewrite Hws', Hw'. reflexivity.
  - apply Qlt_bool_false in E.
    assert (E' : Qlt_bool 0 w' = false) by (apply Qlt_bool_false; lra).
    rewrite E'.
    assert (Hrv : variables create_credit_risk_fis !! "risk" = Some risk_var)
      by reflexivity.
    assert (Hev : variables create_credit_risk_fis !! "eligibility"
                  = Some eligibility_var) by reflexivity.
    rewrite (py_getitem_ok _ _ _ Hrv), (py_getitem_ok _ _ _ Hev). cbn [bind].
    eexists _, _. split; [reflexivity |]. split; [reflexivity |].
    right. split; [lra |]. split; reflexivity.
Qed.

(** [evaluate] on the rule base, for inputs that hold the three keys. *)
Lemma credit_risk_evaluate (inputs : gmap string Q) (income dependents credit : Q) :
  inputs !! "income" = Some income ->
  inputs !! "dependents" = Some dependents ->
  inputs !! "credit_history" = Some credit ->
  exists f1 f3 f5 res r e,
    (rule1_antecedent inputs = Ok f1 /\ 0 <= f1 <= 1) /\
    (rule3_antecedent inputs = Ok f3 /\ 0 <= f3 <= 1) /\
    (rule5_antecedent inputs = Ok f5 /\ 0 <= f5 <= 1) /\
    TsukamotoFIS.evaluate create_credit_risk_fis inputs = Ok res /\
    res !! "risk" = Some r /\ res !! "eligibility" = Some e /\
    TsukamotoFIS.defuzzify create_credit_risk_fis "risk"
      (zip (rules create_credit_risk_fis) [f1; f1; f3; f3; f5; f5]) = Ok r /\
    TsukamotoFIS.defuzzify create_credit_risk_fis "eligibility"
      (zip (rules create_credit_risk_fis) [f1; f1; f3; f3; f5; f5]) = Ok e.
Proof.
  intros Hi Hd Hc.
  destruct (antecedents_total inputs income dependents credit Hi Hd Hc)
    as (f1 & f3 & f5 & H1 & B1 & H3 & B3 & H5 & B5).
  assert (Hfire : Forall2 (fun r fs => rule_evaluate r inputs = Ok fs)
                    (rules create_credit_risk_fis) [f1; f1; f3; f3; f5; f5]).
  { rewrite credit_risk_rules. repeat constructor; assumption. }
  destruct (evaluate_outputs _ inputs _ credit_risk_engine_invariant Hfire)
    as (res & Hev & _ & Hres).
  destruct (Hres "risk") as (rv & r & _ & Hr & Hlr);
    [rewrite credit_risk_outputs; set_solver |].
  destruct (Hres "eligibility") as (ev & e & _ & He & Hle);
    [rewrite credit_risk_outputs; set_solver |].
  exists f1, f3, f5, res, r, e. auto 12.
Qed.

Lemma output_terms_mirror (f : Q) :
  mf_inverse (TrapezoidalMF "low" 0 0 30 40) f
  + mf_inverse (TrapezoidalMF "eligible" 60 70 100 100) f == 100 /\
  mf_inverse (TriangularMF "medium" 30 50 70) f
  + mf_inverse (TriangularMF "under_consideration" 30 50 70) f == 100 /\
  mf_inverse (TrapezoidalMF "high" 60 70 100 100) f
  + mf_inverse (TrapezoidalMF "not_eligible" 0 0 30 40) f == 100.
Proof.
  cbn [mf_inverse]. unfold TrapezoidalMF.inverse, TriangularMF.inverse.
  qcases; halves; repeat split; lra.
Qed.

Lemma evaluate_credit_risk_returns (income dependents rating r e : Q)
  (res : gmap string Q) :
  TsukamotoFIS.evaluate create_credit_risk_fis
    (<["credit_history" := rating]>
       (<["dependents" := dependents]> (<["income" := income]> ∅))) = Ok res ->
  res !! "risk" = Some r -> res !! "eligibility" = Some e ->
  evaluate_credit_risk income dependents rating
  = Ok {| risk := r; eligibility := e |}.
Proof.
  intros Hev Hr He. unfold evaluate_credit_risk. cbv zeta.
  rewrite Hev. cbn [bind].
  rewrite (py_getitem_ok _ _ _ Hr). cbn [bind].
  rewrite (py_getitem_ok _ _ _ He). reflexivity.
Qed.

(** In exact arithmetic the two scores of the rule base add up to 100
    (the crisp values of paired terms do); on doubles the sum is 100 up to
    rounding.  Used below with a margin of 10. *)
Lemma credit_risk_scores_mirror (income dependents rating : Q) :
  exists r e,
    evaluate_credit_risk income dependents rating
    = Ok {| risk := r; eligibility := e |} /\
    r + e == 100.
Proof.
  destruct (credit_risk_evaluate
              (<["credit_history" := rating]>
                 (<["dependents" := dependents]> (<["income" := income]> ∅)))
              income dependents rating)
    as (f1 & f3 & f5 & res & r & e & [_ B1] & [_ B3] & [_ B5]
        & Hev & Hr & He & Hdr & Hde); [reflexivity .. |].
  exists r, e. split; [apply (evaluate_credit_risk_returns _ _ _ _ _ res); assumption |].
  destruct (credit_risk_defuzzify f1 f3 f5) as (r' & e' & Hr' & He' & Hcases);
    [lra .. |].
  assert (r' = r) as -> by congruence. assert (e' = e) as -> by congruence.
  destruct Hcases as [(Hpos & Er & Ee) | (_ & Er & Ee)];
    [| rewrite Er, Ee; reflexivity].
  destruct (output_terms_mirror f1) as (M1 & _ & _).
  destruct (output_terms_mirror f3) as (_ & M3 & _).
  destruct (output_terms_mirror f5) as (_ & _ & M5).
  rewrite Er, Ee. clear Er Ee Hdr Hde Hr' He'.
  revert M1 M3 M5.
  generalize (mf_inverse (TrapezoidalMF "low" 0 0 30 40) f1).
  generalize (mf_inverse (TrapezoidalMF "eligible" 60 70 100 100) f1).
  generalize (mf_inverse (TriangularMF "medium" 30 50 70) f3).
  generalize (mf_inverse (TriangularMF "under_consideration" 30 50 70) f3).
  generalize (mf_inverse (TrapezoidalMF "high" 60 70 100 100) f5).
  generalize (mf_inverse (TrapezoidalMF "not_eligible" 0 0 30 40) f5).
  intros n5 h5 u3 m3 e1 l1 M1 M3 M5.
  assert (e1 == 100 - l1) as -> by lra.
  assert (u3 == 100 - m3) as -> by lra.
  assert (n5 == 100 - h5) as -> by lra.
  field. lra.
Qed.


(** ** Rule introspection *)

Lemma py_list_getitem_ok {A : Type} (l : list A) (i : Z) (x : A) :
  (0 <= i)%Z -> l !! Z.to_nat i = Some x -> py_list_getitem l i = Ok x.
Proof.
  intros Hi Hx. unfold py_list_getitem. cbv zeta.
  assert (Hlt : (Z.to_nat i < length l)%nat) by (apply lookup_lt_is_Some; eauto).
  assert (E0 : (i <? 0)%Z = false) by (apply Z.ltb_ge; lia).
  rewrite E0.
  assert (E1 : (Z.of_nat (length l) <=? i)%Z = false) by (apply Z.leb_gt; lia).
  rewrite E0, E1, Hx. reflexivity.
Qed.

Lemma credit_risk_rule_lookup (i : Z) :
  (0 <= i < 6)%Z ->
  exists rule antecedent,
    rules create_credit_risk_fis !! Z.to_nat i = Some rule /\
    antecedent_func rule = antecedent /\
    (antecedent = rule1_antecedent \/ antecedent = rule3_antecedent \/
     antecedent = rule5_antecedent).
Proof.
  intros Hi. rewrite credit_risk_rules.
  assert (Hc : (i = 0 \/ i = 1 \/ i = 2 \/ i = 3 \/ i = 4 \/ i = 5)%Z) by lia.
  destruct Hc as [-> | [-> | [-> | [-> | [-> | ->]]]]];
    eexists _, _; (split; [reflexivity |]); (split; [reflexivity |]); tauto.
Qed.

(** X14.  For inputs that hold the three keys, [evaluate_rule] raises its
    index error exactly for an index outside 0..5; inside, it returns the
    index, the consequent of that rule of the rule base and the rule's
    firing strength, which lies in [0,1]. *)
Theorem evaluate_rule_contract (rule_index : Z) (inputs : gmap string Q)
  (income dependents credit : Q) :
  inputs !! "income" = Some income ->
  inputs !! "dependents" = Some dependents ->
  inputs !! "credit_history" = Some credit ->
  (evaluate_rule rule_index inputs
   = Raise (ValueError ("Rule index " +:+ pretty rule_index +:+ " out of range"))
   <-> (rule_index < 0 \/ 6 <= rule_index)%Z) /\
  ((0 <= rule_index < 6)%Z ->
   exists rule fs,
     rules create_credit_risk_fis !! Z.to_nat rule_index = Some rule /\
     rule_evaluate rule inputs = Ok fs /\ 0 <= fs <= 1 /\
     evaluate_rule rule_index inputs
     = Ok {| RuleFiring.rule_index := rule_index;
             RuleFiring.firing_strength := fs;
             RuleFiring.consequent_var := consequent_var rule;
             RuleFiring.consequent_term := consequent_term rule |}).
Proof.
  intros Hi Hd Hc.
  destruct (antecedents_total inputs income dependents credit Hi Hd Hc)
    as (f1 & f3 & f5 & H1 & B1 & H3 & B3 & H5 & B5).
  assert (Hin : (0 <= rule_index < 6)%Z ->
    exists rule fs,
      rules create_credit_risk_fis !! Z.to_nat rule_index = Some rule /\
      rule_evaluate rule inputs = Ok fs /\ 0 <= fs <= 1 /\
      evaluate_rule rule_index inputs
      = Ok {| RuleFiring.rule_index := rule_index;
              RuleFiring.firing_strength := fs;
              RuleFiring.consequent_var := consequent_var rule;
              RuleFiring.consequent_term := consequent_term rule |}).
  { intros Hr.
    destruct (credit_risk_rule_lookup rule_index Hr) as (rule & a & Hrule & Ha & Hcase).
    assert (Hfs : exists fs, rule_evaluate rule inputs = Ok fs /\ 0 <= fs <= 1).
    { unfold rule_evaluate. rewrite Ha.
      destruct Hcase as [-> | [-> | ->]]; eauto. }
    destruct Hfs as (fs & Hfs & Bfs). exists rule, fs.
    split; [exact Hrule |]. split; [exact Hfs |]. split; [exact Bfs |].
    unfold evaluate_rule. cbv zeta.
    assert (E0 : (rule_index <? 0)%Z = false) by (apply Z.ltb_ge; lia).
    assert (E1 : (Z.of_nat (length (rules create_credit_risk_fis)) <=? rule_index)%Z
                 = false) by (rewrite credit_risk_rules; apply Z.leb_gt; cbn; lia).
    rewrite E0, E1. cbn [orb].
    rewrite (py_list_getitem_ok _ _ _ (proj1 Hr) Hrule). cbn [bind].
    rewrite Hfs. reflexivity. }
  split; [| exact Hin]. split.
  - intros Hraise.
    destruct (Z.lt_ge_cases rule_index 0) as [? | H0]; [lia |].
    destruct (Z.lt_ge_cases rule_index 6) as [H6 | ?]; [| lia].
    destruct (Hin (conj H0 H6)) as (? & ? & _ & _ & _ & Hok).
    rewrite Hok in Hraise. discriminate.
  - intros Hout. unfold evaluate_rule. cbv zeta.
    assert (E : (rule_index <? 0)%Z
                || (Z.of_nat (length (rules create_credit_risk_fis)) <=? rule_index)%Z
                = true).
    { rewrite credit_risk_rules. apply orb_true_iff.
      destruct Hout; [left; apply Z.ltb_lt; lia | right; apply Z.leb_le; cbn; lia]. }
    rewrite E. reflexivity.
Qed.

Lemma evaluate_rule_contract_witness :
  exists rule fs,
    rules create_credit_risk_fis !! Z.to_nat 5 = Some rule /\
    rule_evaluate rule
      (<["credit_history" := 2]>
         (<["dependents" := 5]> (<["income" := 2000000]> ∅))) = Ok fs /\
    0 <= fs <= 1 /\
    evaluate_rule 5
      (<["credit_history" := 2]>
         (<["dependents" := 5]> (<["income" := 2000000]> ∅)))
    = Ok {| RuleFiring.rule_index := 5;
            RuleFiring.firing_strength := fs;
            RuleFiring.consequent_var := consequent_var rule;
            RuleFiring.consequent_term := consequent_term rule |}.
Proof.
  destruct (evaluate_rule_contract 5
              (<["credit_history" := 2]>
                 (<["dependents" := 5]> (<["income" := 2000000]> ∅)))
              2000000 5 2) as [_ H]; [reflexivity .. |].
  apply H. lia.
Defined.

Lemma get_rule_description_in_range (i : Z) (d : string) :
  (0 <= i)%Z -> descriptions !! Z.to_nat i = Some d ->
  get_rule_description i = Ok d.
Proof.
  intros Hi Hd. unfold get_rule_description.
  assert (Hlt : (Z.to_nat i < length descriptions)%nat)
    by (apply lookup_lt_is_Some; eauto).
  assert (E0 : (i <? 0)%Z = false) by (apply Z.ltb_ge; lia).
  assert (E1 : (Z.of_nat (length descriptions) <=? i)%Z = false)
    by (apply Z.leb_gt; lia).
  rewrite E0, E1. cbn [orb]. apply py_list_getitem_ok; assumption.
Qed.

(** The rule data of the rule base, given the three firing strengths. *)
Lemma rule_data_explicit (inputs : gmap string Q) (f1 f3 f5 : Q) :
  rule1_antecedent inputs = Ok f1 ->
  rule3_antecedent inputs = Ok f3 ->
  rule5_antecedent inputs = Ok f5 ->
  generate_rule_evaluation_data inputs
  = Ok [ rule_entry "Rule 1" f1
           "IF income is high AND dependents are few AND credit history is good THEN eligibility is eligible"
           "eligibility" "eligible" (TrapezoidalMF "eligible" 60 70 100 100);
         rule_entry "Rule 2" f1
           "IF income is high AND dependents are few AND credit history is good THEN risk is low"
           "risk" "low" (TrapezoidalMF "low" 0 0 30 40);
         rule_entry "Rule 3" f3
           "IF income is medium AND dependents are average AND credit history is average THEN eligibility is under consideration"
           "eligibility" "under_consideration"
           (TriangularMF "under_consideration" 30 50 70);
         rule_entry "Rule 4" f3
           "IF income is medium AND dependents are average AND credit history is average THEN risk is medium"
           "risk" "medium" (TriangularMF "medium" 30 50 70);
         rule_entry "Rule 5" f5
           "IF income is low OR dependents are many OR credit history is poor THEN eligibility is not eligible"
           "eligibility" "not_eligible" (TrapezoidalMF "not_eligible" 0 0 30 40);
         rule_entry "Rule 6" f5
           "IF income is low OR dependents are many OR credit history is poor THEN risk is high"
           "risk" "high" (TrapezoidalMF "high" 60 70 100 100) ].
Proof.
  intros H1 H3 H5. unfold generate_rule_evaluation_data. cbv zeta.
  rewrite credit_risk_rules. cbn [rule_evaluation_loop]. unfold rule_evaluate.
  cbn [antecedent_func consequent_var consequent_term].
  change (0 + 1)%Z with 1%Z. change (1 + 1)%Z with 2%Z.
  change (2 + 1)%Z with 3%Z. change (3 + 1)%Z with 4%Z.
  change (4 + 1)%Z with 5%Z. change (5 + 1)%Z with 6%Z.
  rewrite H1, H3, H5. cbn [bind].
  rewrite (py_getitem_ok (variables create_credit_risk_fis) "eligibility"
             eligibility_var) by reflexivity.
  rewrite (py_getitem_ok (variables create_credit_risk_fis) "risk" risk_var)
    by reflexivity.
  cbn [bind].
  rewrite (py_getitem_ok (membership_functions eligibility_var) "eligible"
             (TrapezoidalMF "eligible" 60 70 100 100)) by reflexivity.
  rewrite (py_getitem_ok (membership_functions eligibility_var)
             "under_consideration"
             (TriangularMF "under_consideration" 30 50 70)) by reflexivity.
  rewrite (py_getitem_ok (membership_functions eligibility_var) "not_eligible"
             (TrapezoidalMF "not_eligible" 0 0 30 40)) by reflexivity.
  rewrite (py_getitem_ok (membership_functions risk_var) "low"
             (TrapezoidalMF "low" 0 0 30 40)) by reflexivity.
  rewrite (py_getitem_ok (membership_functions risk_var) "medium"
             (TriangularMF "medium" 30 50 70)) by reflexivity.
  rewrite (py_getitem_ok (membership_functions risk_var) "high"
             (TrapezoidalMF "high" 60 70 100 100)) by reflexivity.
  cbn [bind].
  rewrite (get_rule_description_in_range 0 _ ltac:(lia) eq_refl).
  rewrite (get_rule_description_in_range 1 _ ltac:(lia) eq_refl).
  rewrite (get_rule_description_in_range 2 _ ltac:(lia) eq_refl).
  rewrite (get_rule_description_in_range 3 _ ltac:(lia) eq_refl).
  rewrite (get_rule_description_in_range 4 _ ltac:(lia) eq_refl).
  rewrite (get_rule_description_in_range 5 _ ltac:(lia) eq_refl).
  cbn [bind]. reflexivity.
Qed.

Lemma evaluate_rule_in_range (i : Z) (inputs : gmap string Q)
  (rule : FuzzyRule) (fs : Q) :
  (0 <= i)%Z ->
  rules create_credit_risk_fis !! Z.to_nat i = Some rule ->
  rule_evaluate rule inputs = Ok fs ->
  evaluate_rule i inputs
  = Ok {| RuleFiring.rule_index := i;
          RuleFiring.firing_strength := fs;
          RuleFiring.consequent_var := consequent_var rule;
          RuleFiring.consequent_term := consequent_term rule |}.
Proof.
  intros Hi Hrule Hfs. unfold evaluate_rule. cbv zeta.
  assert (Hlt : (Z.to_nat i < length (rules create_credit_risk_fis))%nat)
    by (apply lookup_lt_is_Some; eauto).
  assert (E0 : (i <? 0)%Z = false) by (apply Z.ltb_ge; lia).
  assert (E1 : (Z.of_nat (length (rules create_credit_risk_fis)) <=? i)%Z = false)
    by (apply Z.leb_gt; lia).
  rewrite E0, E1. cbn [orb].
  rewrite (py_list_getitem_ok _ _ _ Hi Hrule). cbn [bind].
  rewrite Hfs. reflexivity.
Qed.

(** X16.  For inputs that hold the three keys, [generate_rule_evaluation_data]
    returns six entries in rule order.  Entry i carries what
    [evaluate_rule(i, inputs)] returns (firing strength, consequent
    variable and term), the text of [get_rule_description(i)], which is
    never "Unknown rule", and crisp value 0 when the rule did not fire. *)
Theorem rule_data_matches_rules (inputs : gmap string Q)
  (income dependents credit : Q) :
  inputs !! "income" = Some income ->
  inputs !! "dependents" = Some dependents ->
  inputs !! "credit_history" = Some credit ->
  exists data,
    generate_rule_evaluation_data inputs = Ok data /\
    length data = 6%nat /\
    forall i, (0 <= i < 6)%Z ->
      exists entry firing,
        data !! Z.to_nat i = Some entry /\
        evaluate_rule i inputs = Ok firing /\
        RuleData.rule entry = "Rule " +:+ pretty (i + 1)%Z /\
        RuleData.antecedent entry = RuleFiring.firing_strength firing /\
        RuleData.consequent entry = RuleFiring.firing_strength firing /\
        RuleData.output_var entry = RuleFiring.consequent_var firing /\
        RuleData.output_term entry = RuleFiring.consequent_term firing /\
        get_rule_description i = Ok (RuleData.description entry) /\
        RuleData.description entry <> "Unknown rule" /\
        (RuleData.antecedent entry == 0 -> RuleData.crisp_value entry = 0).
Proof.
  intros Hi Hd Hc.
  destruct (antecedents_total inputs income dependents credit Hi Hd Hc)
    as (f1 & f3 & f5 & H1 & _ & H3 & _ & H5 & _).
  eexists. split; [apply (rule_data_explicit inputs f1 f3 f5); assumption |].
  split; [reflexivity |].
  intros i Hrange.
  assert (Hcase : (i = 0 \/ i = 1 \/ i = 2 \/ i = 3 \/ i = 4 \/ i = 5)%Z) by lia.
  assert (Hcrisp : forall f mf,
             f == 0 -> (if Qlt_bool 0 f then mf_inverse mf f else 0) = 0).
  { intros f mf Hf. destruct (Qlt_bool 0 f) eqn:E; [| reflexivity].
    apply Qlt_bool_true in E. lra. }
  destruct Hcase as [-> | [-> | [-> | [-> | [-> | ->]]]]];
    eexists _, _; (split; [reflexivity |]);
    (split; [apply evaluate_rule_in_range;
               [lia | rewrite credit_risk_rules; reflexivity | eassumption] |]);
    cbn [rule_entry RuleData.rule RuleData.antecedent RuleData.consequent
         RuleData.output_var RuleData.output_term RuleData.description
         RuleData.crisp_value RuleFiring.firing_strength
         RuleFiring.consequent_var RuleFiring.consequent_term
         consequent_var consequent_term];
    repeat (split; [reflexivity |]);
    (split; [discriminate | apply Hcrisp]).
Qed.

Lemma rule_data_matches_rules_witness :
  exists data,
    generate_rule_evaluation_data
      (<["credit_history" := 5]>
         (<["dependents" := 2]> (<["income" := 5000000]> ∅))) = Ok data /\
    length data = 6%nat.
Proof.
  destruct (rule_data_matches_rules
              (<["credit_history" := 5]>
                 (<["dependents" := 2]> (<["income" := 5000000]> ∅)))
              5000000 2 5) as (data & Hdata & Hlen & _); [reflexivity .. |].
  exists data. split; assumption.
Defined.

Lemma crisp_times_strength (mf : MembershipFunction) (f : Q) :
  0 <= f ->
  (if Qlt_bool 0 f then mf_inverse mf f else 0) * f == mf_inverse mf f * f.
Proof.
  intros Hf. destruct (Qlt_bool 0 f) eqn:E; [reflexivity |].
  apply Qlt_bool_false in E. assert (H0 : f == 0) by lra.
  generalize (mf_inverse mf f). intros t. rewrite H0. ring.
Qed.

Ltac pick_entries :=
  unfold entries_of; cbn [List.filter rule_entry RuleData.output_var];
  repeat first [ rewrite bool_decide_eq_false_2 by discriminate
               | rewrite bool_decide_eq_true_2 by reflexivity ].

(** X17.  The rule data explains the scores.  For each of the two outputs, take
    the entries of [generate_rule_evaluation_data] with that output
    variable: when their antecedents sum to a positive number, the score
    [evaluate_credit_risk] returns is the sum of crisp_value * antecedent
    over them divided by the sum of their antecedents; when nothing fired
    it is 50. *)
Theorem rule_data_explains_scores (income dependents rating : Q) :
  exists data r e,
    generate_rule_evaluation_data
      (<["credit_history" := rating]>
         (<["dependents" := dependents]> (<["income" := income]> ∅))) = Ok data /\
    evaluate_credit_risk income dependents rating
    = Ok {| risk := r; eligibility := e |} /\
    (0 < total_strength (entries_of "risk" data) ->
     r == weighted_crisp (entries_of "risk" data)
          / total_strength (entries_of "risk" data)) /\
    (total_strength (entries_of "risk" data) <= 0 -> r == 50) /\
    (0 < total_strength (entries_of "eligibility" data) ->
     e == weighted_crisp (entries_of "eligibility" data)
          / total_strength (entries_of "eligibility" data)) /\
    (total_strength (entries_of "eligibility" data) <= 0 -> e == 50).
Proof.
  destruct (credit_risk_evaluate
              (<["credit_history" := rating]>
                 (<["dependents" := dependents]> (<["income" := income]> ∅)))
              income dependents rating)
    as (f1 & f3 & f5 & res & r & e & [H1 B1] & [H3 B3] & [H5 B5]
        & Hev & Hr & He & Hdr & Hde); [reflexivity .. |].
  destruct (credit_risk_defuzzify f1 f3 f5) as (r' & e' & Hr' & He' & Hcases);
    [lra .. |].
  assert (r' = r) as -> by congruence. assert (e' = e) as -> by congruence.
  eexists _, r, e.
  split; [apply (rule_data_explicit _ f1 f3 f5); assumption |].
  split; [apply (evaluate_credit_risk_returns _ _ _ _ _ res); assumption |].
  assert (Hr_entries :
    total_strength (entries_of "risk"
      [ rule_entry "Rule 1" f1
           "IF income is high AND dependents are few AND credit history is good THEN eligibility is eligible"
           "eligibility" "eligible" (TrapezoidalMF "eligible" 60 70 100 100);
         rule_entry "Rule 2" f1
           "IF income is high AND dependents are few AND credit history is good THEN risk is low"
           "risk" "low" (TrapezoidalMF "low" 0 0 30 40);
         rule_entry "Rule 3" f3
           "IF income is medium AND dependents are average AND credit history is average THEN eligibility is under consideration"
           "eligibility" "under_consideration"
           (TriangularMF "under_consideration" 30 50 70);
         rule_entry "Rule 4" f3
           "IF income is medium AND dependents are average AND credit history is average THEN risk is medium"
           "risk" "medium" (TriangularMF "medium" 30 50 70);
         rule_entry "Rule 5" f5
           "IF income is low OR dependents are many OR credit history is poor THEN eligibility is not eligible"
           "eligibility" "not_eligible" (TrapezoidalMF "not_eligible" 0 0 30 40);
         rule_entry "Rule 6" f5
           "IF income is low OR dependents are many OR credit history is poor THEN risk is high"
           "risk" "high" (TrapezoidalMF "high" 60 70 100 100) ])
    == f1 + f3 + f5).
  { pick_entries. unfold total_strength. cbn. ring. }
  match type of Hr_entries with
  | total_strength (entries_of _ ?d) == _ => set (data := d) in *
  end.
  assert (He_entries : total_strength (entries_of "eligibility" data)
                       == f1 + f3 + f5).
  { subst data. pick_entries. unfold total_strength. cbn. ring. }
  assert (Hr_crisp : weighted_crisp (entries_of "risk" data)
    == mf_inverse (TrapezoidalMF "low" 0 0 30 40) f1 * f1
       + mf_inverse (TriangularMF "medium" 30 50 70) f3 * f3
       + mf_inverse (TrapezoidalMF "high" 60 70 100 100) f5 * f5).
  { subst data. pick_entries. unfold weighted_crisp.
    cbn [fmap list_fmap Qsum foldr RuleData.crisp_value RuleData.antecedent
         rule_entry].
    rewrite !crisp_times_strength by lra. ring. }
  assert (He_crisp : weighted_crisp (entries_of "eligibility" data)
    == mf_inverse (TrapezoidalMF "eligible" 60 70 100 100) f1 * f1
       + mf_inverse (TriangularMF "under_consideration" 30 50 70) f3 * f3
       + mf_inverse (TrapezoidalMF "not_eligible" 0 0 30 40) f5 * f5).
  { subst data. pick_entries. unfold weighted_crisp.
    cbn [fmap list_fmap Qsum foldr RuleData.crisp_value RuleData.antecedent
         rule_entry].
    rewrite !crisp_times_strength by lra. ring. }
  rewrite Hr_entries, He_entries, Hr_crisp, He_crisp.
  destruct Hcases as [(Hpos & Er & Ee) | (Hzero & Er & Ee)];
    repeat split; intros; first [assumption | lra].
Qed.

(** ** Missing inputs *)

Lemma degree_of_missing var term key (inputs : gmap string Q) mf :
  membership_functions var !! term = Some mf ->
  inputs !! key = None ->
  degree_of var term key inputs = Raise (KeyError key).
Proof.
  intros Hmf Hx. unfold degree_of.
  rewrite (py_getitem_ok _ _ _ Hmf). cbn [bind].
  unfold py_getitem. rewrite Hx. reflexivity.
Qed.

Ltac degree_missing H :=
  match goal with
  | |- context [degree_of ?var ?term ?key ?inputs] =>
      rewrite (degree_of_missing var term key inputs _ eq_refl H); reflexivity
  end.

Lemma antecedents_missing (inputs : gmap string Q) (key : string) :
  (inputs !! "income" = None /\ key = "income") \/
  (is_Some (inputs !! "income") /\
   inputs !! "dependents" = None /\ key = "dependents") \/
  (is_Some (inputs !! "income") /\ is_Some (inputs !! "dependents") /\
   inputs !! "credit_history" = None /\ key = "credit_history") ->
  rule1_antecedent inputs = Raise (KeyError key) /\
  rule3_antecedent inputs = Raise (KeyError key) /\
  rule5_antecedent inputs = Raise (KeyError key).
Proof.
  intros [[Hi ->] | [([i Hi] & Hd & ->) | ([i Hi] & [d Hd] & Hc & ->)]];
    unfold rule1_antecedent, rule3_antecedent, rule5_antecedent;
    repeat split;
    first [ degree_missing Hi
          | degree_step Hi; first [ degree_missing Hd
                                  | degree_step Hd; degree_missing Hc ] ].
Qed.

(** X10.  When the inputs lack one of the three keys, the first missing one
    (in the order income, dependents, credit_history) is reported as a
    [KeyError] by [evaluate] on the rule base, by
    [generate_rule_evaluation_data] and by [evaluate_rule] at every valid
    index; no default is substituted. *)
Theorem missing_input_is_key_error (inputs : gmap string Q) (key : string) :
  (inputs !! "income" = None /\ key = "income") \/
  (is_Some (inputs !! "income") /\
   inputs !! "dependents" = None /\ key = "dependents") \/
  (is_Some (inputs !! "income") /\ is_Some (inputs !! "dependents") /\
   inputs !! "credit_history" = None /\ key = "credit_history") ->
  TsukamotoFIS.evaluate create_credit_risk_fis inputs = Raise (KeyError key) /\
  generate_rule_evaluation_data inputs = Raise (KeyError key) /\
  forall i, (0 <= i < 6)%Z -> evaluate_rule i inputs = Raise (KeyError key).
Proof.
  intros Hmiss.
  destruct (antecedents_missing inputs key Hmiss) as (H1 & H3 & H5).
  split; [| split].
  - unfold TsukamotoFIS.evaluate. rewrite credit_risk_rules.
    cbn [TsukamotoFIS.fire]. unfold rule_evaluate. cbn [antecedent_func].
    rewrite H1. reflexivity.
  - unfold generate_rule_evaluation_data. cbv zeta. rewrite credit_risk_rules.
    cbn [rule_evaluation_loop]. unfold rule_evaluate. cbn [antecedent_func].
    rewrite H1. reflexivity.
  - intros i Hi.
    destruct (credit_risk_rule_lookup i Hi) as (rule & a & Hrule & Ha & Hcase).
    unfold evaluate_rule. cbv zeta.
    assert (E0 : (i <? 0)%Z = false) by (apply Z.ltb_ge; lia).
    assert (E1 : (Z.of_nat (length (rules create_credit_risk_fis)) <=? i)%Z
                 = false) by (rewrite credit_risk_rules; apply Z.leb_gt; cbn; lia).
    rewrite E0, E1. cbn [orb].
    rewrite (py_list_getitem_ok _ _ _ (proj1 Hi) Hrule). cbn [bind].
    unfold rule_evaluate. rewrite Ha.
    destruct Hcase as [-> | [-> | ->]];
      [rewrite H1 | rewrite H3 | rewrite H5]; reflexivity.
Qed.

Lemma missing_input_is_key_error_witness :
  TsukamotoFIS.evaluate create_credit_risk_fis
    (<["dependents" := 1]> (<["income" := 8000000]> ∅))
  = Raise (KeyError "credit_history").
Proof.
  destruct (missing_input_is_key_error
              (<["dependents" := 1]> (<["income" := 8000000]> ∅))
              "credit_history") as (H & _).
  - right. right. repeat split; try reflexivity; eexists; reflexivity.
  - exact H.
Defined.

(** ** Fuzzification and membership curves *)


(** X12.  A point of a membership curve is the fuzzification of its sample with
    the sample added under "x"; a term that is itself named "x" takes
    precedence over the sample. *)
Theorem curve_point_is_fuzzify (variable : FuzzyVariable) (x : Q) :
  exists degrees,
    fuzzify variable x = Ok degrees /\
    curve_point variable x = Ok (degrees ∪ {["x" := x]}).
Proof.
  unfold fuzzify, curve_point.
  destruct (foldM_degrees x (map_to_list (membership_functions variable))
              (NoDup_fst_map_to_list _) ∅) as (q & Hq & Hqin & Hqout).
  destruct (foldM_degrees x (map_to_list (membership_functions variable))
              (NoDup_fst_map_to_list _) {["x" := x]}) as (p & Hp & Hpin & Hpout).
  exists q. split; [exact Hq |]. rewrite Hp. f_equal.
  apply map_eq. intros k. rewrite lookup_union.
  destruct (membership_functions variable !! k) as [mf |] eqn:Hk.
  - apply elem_of_map_to_list in Hk.
    destruct (Hqin k mf Hk) as (d & Hd & ->).
    destruct (Hpin k mf Hk) as (d' & Hd' & ->).
    assert (d' = d) as -> by congruence.
    destruct ({["x" := x]} !! k); reflexivity.
  - assert (Hnot : k ∉ (map_to_list (membership_functions variable)).*1).
    { intros Hin. apply list_elem_of_fmap in Hin as ([t mf] & Heq & Hin).
      apply elem_of_map_to_list in Hin. cbn [fst] in Heq. congruence. }
    rewrite (Hqout k Hnot), (Hpout k Hnot), lookup_empty.
    destruct ({["x" := x]} !! k); reflexivity.
Qed.

(** X13.  On a known variable: a negative [num_points] is refused by
    [linspace] with its own [ValueError], zero points give an empty list,
    and one point gives a single point whose x is the range minimum. *)
Theorem membership_curve_small_counts (variable_name : string) (num_points : Z) :
  variable_name ∈ ["income"; "dependents"; "credit_history"; "risk";
                   "eligibility"] ->
  ((num_points < 0)%Z ->
   generate_membership_function_data variable_name num_points
   = Raise (ValueError ("Number of samples, " +:+ pretty num_points
                        +:+ ", must be non-negative."))) /\
  (num_points = 0%Z ->
   generate_membership_function_data variable_name num_points = Ok []) /\
  (num_points = 1%Z ->
   exists var p x0,
     variables create_credit_risk_fis !! variable_name = Some var /\
     generate_membership_function_data variable_name num_points = Ok [p] /\
     p !! "x" = Some x0 /\ x0 == fst (range var)).
Proof.
  intros Hin.
  destruct (credit_risk_variable_known variable_name Hin)
    as (var & Hvar & Hx & _).
  apply credit_risk_variable_names in Hin.
  unfold generate_membership_function_data. cbv zeta.
  rewrite bool_decide_eq_true_2 by exact Hin.
  rewrite (py_getitem_ok _ _ _ Hvar). cbn [bind].
  destruct (range var) as [range_min range_max] eqn:Hr.
  split; [| split].
  - intros Hneg. unfold linspace.
    assert (E : (num_points <? 0)%Z = true) by (apply Z.ltb_lt; lia).
    rewrite E. reflexivity.
  - intros ->. reflexivity.
  - intros ->. exists var.
    destruct (curve_point_total var (inject_Z 0 * (range_max - range_min)
                                     + range_min)) as (p & Hp & Hpx & _).
    exists p, (inject_Z 0 * (range_max - range_min) + range_min).
    split; [exact Hvar |]. split.
    + change (linspace range_min range_max 1)
        with (Ok [inject_Z 0 * (range_max - range_min) + range_min]).
      cbn [bind foldM]. rewrite Hp. reflexivity.
    + split; [apply Hpx, Hx |]. rewrite Hr. cbn [fst].
      change (inject_Z 0) with 0. ring.
Qed.

Lemma membership_curve_small_counts_witness :
  generate_membership_function_data "risk" 0 = Ok [].
Proof.
  destruct (membership_curve_small_counts "risk" 0) as (_ & H & _).
  - rewrite !elem_of_cons. tauto.
  - apply H. reflexivity.
Defined.

(** ** The request layer *)

Lemma ascii_lower_idempotent (c : Ascii.ascii) :
  ascii_lower (ascii_lower c) = ascii_lower c.
Proof. destruct c as [[] [] [] [] [] [] [] []]; reflexivity. Qed.

Lemma str_lower_idempotent (s : string) : str_lower (str_lower s) = str_lower s.
Proof.
  induction s as [| c s IH]; cbn [str_lower]; [reflexivity |].
  rewrite ascii_lower_idempotent, IH. reflexivity.
Qed.

(** X18.  The credit-history label is read without regard to ASCII case: "poor"
    gives 2 and "good" gives 8 in any capitalisation, and every other
    label, "average" included, gives 5. *)
Theorem credit_history_value_cases (credit_history : string) :
  credit_history_value (str_lower credit_history)
  = credit_history_value credit_history /\
  ((str_lower credit_history = "poor" /\ credit_history_value credit_history = 2) \/
   (str_lower credit_history = "good" /\ credit_history_value credit_history = 8) \/
   (str_lower credit_history <> "poor" /\ str_lower credit_history <> "good" /\
    credit_history_value credit_history = 5)).
Proof.
  unfold credit_history_value. rewrite str_lower_idempotent.
  split; [reflexivity |].
  unfold py_dict_get, credit_history_map.
  destruct (decide (str_lower credit_history = "good")) as [-> | Hg].
  { right. left. split; reflexivity. }
  rewrite lookup_insert_ne by congruence.
  destruct (decide (str_lower credit_history = "average")) as [E | Ha].
  { right. right. rewrite E.
    split; [discriminate | split; [discriminate | reflexivity]]. }
  rewrite lookup_insert_ne by congruence.
  destruct (decide (str_lower credit_history = "poor")) as [-> | Hp].
  { left. split; reflexivity. }
  rewrite lookup_insert_ne by congruence. rewrite lookup_empty.
  right. right. auto.
Qed.

Lemma py_int_ge (n : Z) (x : Q) :
  (0 < n)%Z -> ((n <= py_int x)%Z <-> inject_Z n <= x).
Proof.
  intros Hn. destruct x as [p q]. unfold py_int, Qle, inject_Z. cbn [Qnum Qden].
  rewrite Z.mul_1_r.
  pose proof (Z.quot_rem' p (Zpos q)) as Hqr.
  destruct (Z.le_gt_cases 0 p) as [Hp | Hp].
  - pose proof (Z.rem_bound_pos p (Zpos q) Hp ltac:(lia)) as Hb.
    split; intros H; nia.
  - pose proof (Z.mul_quot_ge p (Zpos q) ltac:(lia) ltac:(lia)) as Hb.
    split; intros H; nia.
Qed.

Lemma py_int_range (x : Q) (n : Z) :
  0 <= x -> x <= inject_Z n -> (0 <= py_int x <= n)%Z.
Proof.
  destruct x as [p q]. unfold py_int, Qle, inject_Z. cbn [Qnum Qden].
  rewrite !Z.mul_1_r. intros Hp Hn.
  pose proof (Z.quot_rem' p (Zpos q)) as Hqr.
  pose proof (Z.rem_bound_pos p (Zpos q) ltac:(lia) ltac:(lia)) as Hb.
  split; nia.
Qed.

(** Labels computed from the truncated score agree with the labels of the
    score itself. *)
Lemma truncated_labels (x : Q) :
  (if (70 <=? py_int x)%Z then "High"
   else if (40 <=? py_int x)%Z then "Medium" else "Low") = get_risk_level x /\
  (if (py_int x <? 40)%Z then "Not Eligible"
   else if (py_int x <? 70)%Z then "Under Consideration" else "Eligible")
  = get_eligibility_status x.
Proof.
  unfold get_risk_level, get_eligibility_status.
  pose proof (py_int_ge 70 x ltac:(lia)) as H70.
  pose proof (py_int_ge 40 x ltac:(lia)) as H40.
  change (inject_Z 70) with 70 in H70. change (inject_Z 40) with 40 in H40.
  destruct (Qlt_bool x 40) eqn:E40; [apply Qlt_bool_true in E40
                                    | apply Qlt_bool_false in E40];
  (destruct (Qlt_bool x 70) eqn:E70; [apply Qlt_bool_true in E70
                                     | apply Qlt_bool_false in E70]);
  (destruct (70 <=? py_int x)%Z eqn:Z70; [apply Z.leb_le in Z70
                                        | apply Z.leb_gt in Z70]);
  (destruct (40 <=? py_int x)%Z eqn:Z40; [apply Z.leb_le in Z40
                                        | apply Z.leb_gt in Z40]);
  (destruct (py_int x <? 40)%Z eqn:L40; [apply Z.ltb_lt in L40
                                        | apply Z.ltb_ge in L40]);
  (destruct (py_int x <? 70)%Z eqn:L70; [apply Z.ltb_lt in L70
                                        | apply Z.ltb_ge in L70]);
  try (split; reflexivity);
  exfalso;
  try (apply H70 in Z70); try (apply H40 in Z40);
  try (apply H70 in L70); try (apply H40 in L40);
  try lra; try lia;
  try (assert (70 <= py_int x)%Z by (apply H70; lra); lia);
  try (assert (40 <= py_int x)%Z by (apply H40; lra); lia).
Qed.

Lemma evaluate_credit_risk_bounds (income dependents rating : Q) :
  exists r e,
    evaluate_credit_risk income dependents rating
    = Ok {| risk := r; eligibility := e |} /\
    0 <= r <= 100 /\ 0 <= e <= 100.
Proof.
  destruct (credit_risk_evaluate
              (<["credit_history" := rating]>
                 (<["dependents" := dependents]> (<["income" := income]> ∅)))
              income dependents rating)
    as (f1 & f3 & f5 & res & r & e & _ & _ & _ & Hev & Hr & He & Hdr & Hde);
    [reflexivity .. |].
  exists r, e.
  split; [apply (evaluate_credit_risk_returns _ _ _ _ _ res); assumption |].
  split.
  - apply (credit_risk_output_range [f1; f1; f3; f3; f5; f5]
             "risk" risk_var r); [reflexivity | apply risk_crisp_range | | exact Hdr].
    vm_compute. split; discriminate.
  - apply (credit_risk_output_range [f1; f1; f3; f3; f5; f5]
             "eligibility" eligibility_var e);
      [reflexivity | apply eligibility_crisp_range | | exact Hde].
    vm_compute. split; discriminate.
Qed.

(** X19.  For a request whose [monthly_income] and [dependents] are real
    numbers and whose [credit_history] is a string, the scoring steps of
    [create_application] return: the two stored scores are the engine's
    scores truncated to integers in 0..100, and the two stored labels,
    although computed from the truncated scores, are the labels
    [get_risk_level] and [get_eligibility_status] give to the untruncated
    ones. *)
Theorem create_application_scores_consistent (monthly_income dependents : Q)
  (credit_history : string) :
  exists r e,
    evaluate_credit_risk monthly_income dependents
      (credit_history_value credit_history)
    = Ok {| risk := r; eligibility := e |} /\
    create_application_scores monthly_income dependents credit_history
    = Ok {| ApplicationScores.risk_score := py_int r;
            ApplicationScores.risk_level := get_risk_level r;
            ApplicationScores.eligibility_score := py_int e;
            ApplicationScores.eligibility_status := get_eligibility_status e |} /\
    (0 <= py_int r <= 100)%Z /\ (0 <= py_int e <= 100)%Z.
Proof.
  destruct (evaluate_credit_risk_bounds monthly_income dependents
              (credit_history_value credit_history))
    as (r & e & Hev & Br & Be).
  exists r, e. split; [exact Hev |]. split.
  - unfold create_application_scores. cbv zeta. rewrite Hev. cbn [bind risk eligibility].
    destruct (truncated_labels r) as [-> _].
    destruct (truncated_labels e) as [_ ->]. reflexivity.
  - split; apply py_int_range; change (inject_Z 100) with 100; lra.
Qed.

(** ** Supports and coverage *)

Lemma Qdiv_pos (p q : Q) : 0 < q -> 0 < p -> 0 < p / q.
Proof. intros Hq Hp. apply Qlt_shift_div_l; lra. Qed.

Ltac support_case :=
  rewrite ?py_div_ok by lra;
  eexists; split; [reflexivity |];
  split; intros; first [lra | apply Qdiv_pos; lra | split; lra].

Lemma degree_positive_inside_support_aux (mf : MembershipFunction)
  (lo hi x : Q) :
  mf_within lo hi mf ->
  exists d,
    mf_evaluate mf x = Ok d /\
    (0 < d <->
     match mf with
     | TriangularMF _ a _ c => a < x /\ x < c
     | TrapezoidalMF _ a _ _ d' => a < x /\ x < d'
     end).
Proof.
  destruct mf as [n a b c | n a b c d']; cbn [mf_within mf_evaluate].
  - intros (_ & Hab & Hbc & _). unfold TriangularMF.evaluate.
    qcases; support_case.
  - intros (_ & Hab & Hbc & Hcd & _). unfold TrapezoidalMF.evaluate.
    qcases; support_case.
Qed.

Lemma term_positive_iff (mf : MembershipFunction) (lo hi x : Q) :
  mf_within lo hi mf ->
  (exists d, mf_evaluate mf x = Ok d /\ 0 < d) <->
  match mf with
  | TriangularMF _ a _ c => a < x /\ x < c
  | TrapezoidalMF _ a _ _ d' => a < x /\ x < d'
  end.
Proof.
  intros Hw.
  destruct (degree_positive_inside_support_aux mf lo hi x Hw) as (d & Hd & Hiff).
  split.
  - intros (d' & Hd' & Hpos). assert (d' = d) as -> by congruence.
    apply Hiff, Hpos.
  - intros Hin. exists d. split; [exact Hd | apply Hiff, Hin].
Qed.

Ltac unfold_terms H :=
  cbv [income_var dependents_var credit_history_var risk_var eligibility_var
       add_membership_function new_FuzzyVariable membership_functions mf_name]
    in H.

Ltac term_inside H Hpos :=
  match type of H with
  | mf_evaluate ?mf ?x = Ok ?d =>
      let Hw := fresh "Hw" in
      let Hiff := fresh "Hiff" in
      assert (Hw : mf_within 0 20000000 mf) by (cbn [mf_within]; lra);
      pose proof (proj1 (term_positive_iff mf 0 20000000 x Hw)
                    (ex_intro _ d (conj H Hpos))) as Hiff;
      cbn beta iota in Hiff
  end.

Ltac term_fires var t mf x :=
  let H := fresh "H" in
  let Hw := fresh "Hw" in
  assert (Hw : mf_within 0 20000000 mf) by (cbn [mf_within]; lra);
  destruct (proj2 (term_positive_iff mf 0 20000000 x Hw)) as (? & H & ?);
  [cbn beta iota; lra |];
  exists t, mf; eexists; split; [reflexivity | split; [exact H | assumption]].

(** X9.  Which inputs belong to some term.  An income has a term of positive
    degree exactly when 0 < income < 20,000,000, a credit-history rating
    exactly when 0 < rating < 10, and a number of dependents exactly when
    0 < dependents < 10 and dependents is not 3: with 0, 3 or 10
    dependents no term of [dependents] applies at all. *)
Theorem input_terms_coverage (x : Q) :
  ((exists t mf d, membership_functions income_var !! t = Some mf /\
                   mf_evaluate mf x = Ok d /\ 0 < d)
   <-> 0 < x /\ x < 20000000) /\
  ((exists t mf d, membership_functions dependents_var !! t = Some mf /\
                   mf_evaluate mf x = Ok d /\ 0 < d)
   <-> 0 < x /\ x < 10 /\ ~ x == 3) /\
  ((exists t mf d, membership_functions credit_history_var !! t = Some mf /\
                   mf_evaluate mf x = Ok d /\ 0 < d)
   <-> 0 < x /\ x < 10).
Proof.
  split; [| split]; split.
  - intros (t & mf & d & Ht & Hd & Hpos). unfold_terms Ht.
    lookup_cases Ht; term_inside Hd Hpos; lra.
  - intros [H0 H1].
    destruct (Qlt_le_dec x 3000000);
      [term_fires income_var "low" (TrapezoidalMF "low" 0 0 2500000 3000000) x |].
    destruct (Qlt_le_dec x 7000000);
      [term_fires income_var "medium"
         (TriangularMF "medium" 2500000 5000000 7000000) x |].
    term_fires income_var "high"
      (TrapezoidalMF "high" 6500000 7000000 20000000 20000000) x.
  - intros (t & mf & d & Ht & Hd & Hpos). unfold_terms Ht.
    lookup_cases Ht; term_inside Hd Hpos; repeat split; lra.
  - intros (H0 & H1 & H3).
    destruct (Qlt_le_dec x 2);
      [term_fires dependents_var "few" (TrapezoidalMF "few" 0 0 1 2) x |].
    destruct (Qlt_le_dec x 3);
      [term_fires dependents_var "average" (TriangularMF "average" 1 2 3) x |].
    assert (3 < x) by (apply Qnot_le_lt; intros Hle; apply H3; lra).
    term_fires dependents_var "many" (TrapezoidalMF "many" 3 4 10 10) x.
  - intros (t & mf & d & Ht & Hd & Hpos). unfold_terms Ht.
    lookup_cases Ht; term_inside Hd Hpos; lra.
  - intros [H0 H1].
    destruct (Qlt_le_dec x 4);
      [term_fires credit_history_var "poor" (TrapezoidalMF "poor" 0 0 3 4) x |].
    destruct (Qlt_le_dec x 7);
      [term_fires credit_history_var "average" (TriangularMF "average" 3 5 7) x |].
    term_fires credit_history_var "good" (TrapezoidalMF "good" 6 7 10 10) x.
Qed.

(** X15.  [get_rule_description] never raises; it answers "Unknown rule" exactly
    for an index outside 0..5, the indices at which [evaluate_rule] raises
    its index error. *)
Theorem get_rule_description_cases (rule_index : Z) :
  exists d,
    get_rule_description rule_index = Ok d /\
    (d = "Unknown rule" <-> (rule_index < 0 \/ 6 <= rule_index)%Z).
Proof.
  destruct (Z.lt_ge_cases rule_index 0) as [Hneg | H0].
  - exists "Unknown rule". split; [| split; [lia | reflexivity]].
    unfold get_rule_description.
    assert (E : (rule_index <? 0)%Z = true) by (apply Z.ltb_lt; lia).
    rewrite E. reflexivity.
  - destruct (Z.lt_ge_cases rule_index 6) as [H6 | H6].
    + assert (Hc : (rule_index = 0 \/ rule_index = 1 \/ rule_index = 2 \/
                    rule_index = 3 \/ rule_index = 4 \/ rule_index = 5)%Z) by lia.
      destruct Hc as [-> | [-> | [-> | [-> | [-> | ->]]]]];
        eexists; (split; [reflexivity |]); (split; [discriminate | lia]).
    + exists "Unknown rule". split; [| split; [lia | reflexivity]].
      unfold get_rule_description.
      assert (E : (Z.of_nat (length descriptions) <=? rule_index)%Z = true)
        by (apply Z.leb_le; cbn; lia).
      rewrite E, orb_true_r. reflexivity.
Qed.

(** ** Score bands *)

Lemma output_crisp_band (v t : string) (var : FuzzyVariable)
  (mf : MembershipFunction) (y : Q) :
  var = risk_var \/ var = eligibility_var ->
  membership_functions var !! t = Some mf -> 0 < y ->
  15 <= mf_inverse mf y <= 85.
Proof.
  intros [-> | ->] H Hy; unfold_terms H; lookup_cases H; crisp_case.
Qed.

(** X20.  The scores of the rule base never leave [15, 85]: the crisp values of
    the outer terms stop at 15 and 85, so neither score reaches 0 or
    100, whatever the inputs. *)
Theorem scores_between_15_and_85 (income dependents rating : Q) :
  exists r e,
    evaluate_credit_risk income dependents rating
    = Ok {| risk := r; eligibility := e |} /\
    15 <= r <= 85 /\ 15 <= e <= 85.
Proof.
  destruct (credit_risk_evaluate
              (<["credit_history" := rating]>
                 (<["dependents" := dependents]> (<["income" := income]> ∅)))
              income dependents rating)
    as (f1 & f3 & f5 & res & r & e & _ & _ & _ & Hev & Hr & He & Hdr & Hde);
    [reflexivity .. |].
  exists r, e.
  split; [apply (evaluate_credit_risk_returns _ _ _ _ _ res); assumption |].
  split.
  - apply (defuzzify_in_range create_credit_risk_fis "risk" risk_var 15 85
             (zip (rules create_credit_risk_fis) [f1; f1; f3; f3; f5; f5]));
      [reflexivity
      | intros t mf y; apply (output_crisp_band "risk"); left; reflexivity
      | vm_compute; split; discriminate
      | apply invariant_resolves, credit_risk_engine_invariant
      | exact Hdr].
  - apply (defuzzify_in_range create_credit_risk_fis "eligibility"
             eligibility_var 15 85
             (zip (rules create_credit_risk_fis) [f1; f1; f3; f3; f5; f5]));
      [reflexivity
      | intros t mf y; apply (output_crisp_band "eligibility"); right; reflexivity
      | vm_compute; split; discriminate
      | apply invariant_resolves, credit_risk_engine_invariant
      | exact Hde].
Qed.

(** X21.  The two labels never contradict each other: an application whose
    eligibility is labelled "Eligible" has risk labelled "Low", and one
    whose risk is labelled "High" has eligibility labelled
    "Not Eligible". *)
Theorem labels_agree (income dependents rating : Q) :
  exists r e,
    evaluate_credit_risk income dependents rating
    = Ok {| risk := r; eligibility := e |} /\
    (get_eligibility_status e = "Eligible" -> get_risk_level r = "Low") /\
    (get_risk_level r = "High" -> get_eligibility_status e = "Not Eligible").
Proof.
  destruct (credit_risk_scores_mirror income dependents rating)
    as (r & e & Hev & Hsum).
  exists r, e. split; [exact Hev |].
  unfold get_eligibility_status, get_risk_level.
  split; qcases; intros H; first [reflexivity | discriminate H | lra].
Qed.




(** ** Rules that name unknown terms *)

Lemma foldM_insert_raise (f : string -> result Q) (l : list string)
  (v : string) (e : exn) :
  v ∈ l -> f v = Raise e ->
  (forall u, u ∈ l -> u <> v -> returns (f u)) ->
  forall res0 : gmap string Q,
    foldM (fun res u => let* y := f u in Ok (<[u := y]> res)) res0 l = Raise e.
Proof.
  intros Hin Hv. induction l as [| x l IH]; intros Hret res0; [inversion Hin |].
  cbn [foldM]. destruct (decide (x = v)) as [-> | Hne].
  - rewrite Hv. reflexivity.
  - destruct (Hret x) as [y Hy]; [left | exact Hne |]. rewrite Hy. cbn [bind].
    apply IH.
    + apply elem_of_cons in Hin as [-> | Hin]; [congruence | exact Hin].
    + intros u Hu. apply Hret. right. exact Hu.
Qed.

Lemma appended_rule_skipped (fis : TsukamotoFIS) (r : FuzzyRule)
  (rr : list (FuzzyRule * Q)) (fs : Q) (v : string) :
  bool_decide (consequent_var r = v) && Qlt_bool 0 fs = false ->
  TsukamotoFIS.defuzzify (TsukamotoFIS.add_rule fis r) v (rr ++ [(r, fs)])
  = TsukamotoFIS.defuzzify fis v rr.
Proof.
  intros Hskip. unfold TsukamotoFIS.defuzzify. rewrite foldM_app.
  change (TsukamotoFIS.accumulate (TsukamotoFIS.add_rule fis r) v)
    with (TsukamotoFIS.accumulate fis v).
  destruct (foldM (TsukamotoFIS.accumulate fis v) (0, 0) rr)
    as [[ws w] | e]; cbn [bind]; [| reflexivity].
  rewrite (accumulate_skip _ _ _ _ _ Hskip). reflexivity.
Qed.

(** A rule appended to a valid engine that fires on an output variable
    but names a term the variable does not have: [evaluate] raises the
    [KeyError] of that term. *)
Lemma unknown_term_raises (fis : TsukamotoFIS) (r : FuzzyRule)
  (inputs : gmap string Q) (strengths : list Q) (fs : Q) :
  engine_invariant fis ->
  Forall2 (fun r' f => rule_evaluate r' inputs = Ok f) (rules fis) strengths ->
  rule_evaluate r inputs = Ok fs ->
  consequent_var r ∈ output_variables fis ->
  consequent_mf fis r = None ->
  0 < fs ->
  TsukamotoFIS.evaluate (TsukamotoFIS.add_rule fis r) inputs
  = Raise (KeyError (consequent_term r)).
Proof.
  intros Hinv Hfire Hr Hout Hnone Hfs. unfold TsukamotoFIS.evaluate.
  cbn [rules output_variables TsukamotoFIS.add_rule].
  rewrite (fire_app _ _ _ _ Hr), (fire_zip _ _ _ Hfire). cbn [bind].
  set (rr := zip (rules fis) strengths).
  apply (foldM_insert_raise _ _ (consequent_var r)).
  - apply elem_of_elements, Hout.
  - unfold TsukamotoFIS.defuzzify. rewrite foldM_app.
    change (TsukamotoFIS.accumulate (TsukamotoFIS.add_rule fis r)
              (consequent_var r))
      with (TsukamotoFIS.accumulate fis (consequent_var r)).
    destruct (foldM_accumulate fis (consequent_var r) rr
                (invariant_resolves fis strengths _ Hinv) 0 0)
      as (ws & w & _ & Hfold & _).
    rewrite Hfold. cbn [bind]. unfold TsukamotoFIS.accumulate.
    rewrite bool_decide_eq_true_2 by reflexivity.
    apply Qlt_bool_true in Hfs. rewrite Hfs. cbn [andb].
    apply (proj1 Hinv), elem_of_dom in Hout. destruct Hout as [var Hvar].
    unfold consequent_mf in Hnone. rewrite Hvar in Hnone. cbn in Hnone.
    rewrite (py_getitem_ok _ _ _ Hvar). cbn [bind].
    unfold py_getitem. rewrite Hnone. reflexivity.
  - intros u Hu Hne. apply elem_of_elements in Hu.
    rewrite (appended_rule_skipped fis r rr fs u)
      by (rewrite bool_decide_eq_false_2 by congruence; reflexivity).
    pose proof Hu as Hdom. apply (proj1 Hinv), elem_of_dom in Hdom.
    destruct Hdom as [var Hvar].
    destruct (defuzzify_spec fis u var rr Hvar
                (invariant_resolves fis strengths u Hinv)) as (y & _ & Hy & _).
    exists y. exact Hy.
Qed.

(** A rule appended to an engine that names a variable outside the output
    set, or does not fire, changes nothing. *)
Lemma unlisted_rule_ignored (fis : TsukamotoFIS) (r : FuzzyRule)
  (inputs : gmap string Q) (fs : Q) :
  rule_evaluate r inputs = Ok fs ->
  consequent_var r ∉ output_variables fis \/ fs <= 0 ->
  TsukamotoFIS.evaluate (TsukamotoFIS.add_rule fis r) inputs
  = TsukamotoFIS.evaluate fis inputs.
Proof.
  intros Hr Hidle. unfold TsukamotoFIS.evaluate.
  cbn [rules output_variables TsukamotoFIS.add_rule].
  rewrite (fire_app _ _ _ _ Hr).
  destruct (TsukamotoFIS.fire (rules fis) inputs) as [rr | e]; cbn [bind];
    [| reflexivity].
  apply foldM_ext_in. intros res v Hv. apply elem_of_elements in Hv.
  rewrite appended_rule_skipped; [reflexivity |].
  destruct Hidle as [Hout | Hle].
  - rewrite bool_decide_eq_false_2; [reflexivity | congruence].
  - apply andb_false_iff. right. apply Qlt_bool_false. exact Hle.
Qed.

(** C8, as amended.  The engine built by [create_credit_risk_fis] has six
    rules; each rule's consequent variable is a key of the engine's
    variables and a member of its output set, and each rule's consequent
    term is a key of that variable's membership functions.  Nothing is
    rejected while an engine is built: [add_rule] appends whatever rule it
    is given and leaves variables and outputs as they are.  What a rule
    with an unknown consequent does shows at evaluation only.  On an engine
    that satisfies its invariant and inputs on which every antecedent
    returns, an appended rule that fires on an output variable without the
    named term makes [evaluate] raise [KeyError] of the term; an appended
    rule whose variable is not an output variable, or which does not fire,
    leaves the outcome of [evaluate] unchanged. *)
Theorem rule_base_valid_rules_unchecked :
  (length (rules create_credit_risk_fis) = 6%nat /\
   Forall (fun r =>
             consequent_var r ∈ dom (variables create_credit_risk_fis) /\
             consequent_var r ∈ output_variables create_credit_risk_fis /\
             exists var,
               variables create_credit_risk_fis !! consequent_var r = Some var /\
               consequent_term r ∈ dom (membership_functions var))
          (rules create_credit_risk_fis)) /\
  (forall fis rule,
      rules (TsukamotoFIS.add_rule fis rule) = (rules fis ++ [rule])%list /\
      variables (TsukamotoFIS.add_rule fis rule) = variables fis /\
      output_variables (TsukamotoFIS.add_rule fis rule) = output_variables fis) /\
  (forall fis rule inputs strengths fs,
      engine_invariant fis ->
      Forall2 (fun r f => rule_evaluate r inputs = Ok f) (rules fis) strengths ->
      rule_evaluate rule inputs = Ok fs ->
      (consequent_var rule ∈ output_variables fis ->
       consequent_mf fis rule = None -> 0 < fs ->
       TsukamotoFIS.evaluate (TsukamotoFIS.add_rule fis rule) inputs
       = Raise (KeyError (consequent_term rule))) /\
      (consequent_var rule ∉ output_variables fis \/ fs <= 0 ->
       TsukamotoFIS.evaluate (TsukamotoFIS.add_rule fis rule) inputs
       = TsukamotoFIS.evaluate fis inputs)).
Proof.
  destruct credit_risk_rules_resolved as (Hlen & Hall & Hadd).
  split; [split; assumption |]. split; [exact Hadd |].
  intros fis rule inputs strengths fs Hinv Hfire Hrule. split.
  - intros Hout Hnone Hfs.
    apply (unknown_term_raises fis rule inputs strengths fs); assumption.
  - intros Hidle. apply (unlisted_rule_ignored fis rule inputs fs); assumption.
Qed.

Lemma rule_base_valid_rules_unchecked_witness :
  TsukamotoFIS.evaluate
    (TsukamotoFIS.add_rule create_credit_risk_fis
       (mkFuzzyRule (fun _ => Ok 1) "risk" "extreme"))
    (<["credit_history" := 8]>
       (<["dependents" := 1]> (<["income" := 8000000]> ∅)))
  = Raise (KeyError "extreme") /\
  TsukamotoFIS.evaluate
    (TsukamotoFIS.add_rule create_credit_risk_fis
       (mkFuzzyRule (fun _ => Ok 1) "income" "extreme"))
    (<["credit_history" := 8]>
       (<["dependents" := 1]> (<["income" := 8000000]> ∅)))
  = TsukamotoFIS.evaluate create_credit_risk_fis
      (<["credit_history" := 8]>
         (<["dependents" := 1]> (<["income" := 8000000]> ∅))).
Proof.
  destruct rule_base_valid_rules_unchecked as (_ & _ & H). split.
  - destruct (H create_credit_risk_fis
                (mkFuzzyRule (fun _ => Ok 1) "risk" "extreme")
                (<["credit_history" := 8]>
                   (<["dependents" := 1]> (<["income" := 8000000]> ∅)))
                [1; 1; 0; 0; 0; 0] 1
                credit_risk_engine_invariant scenario_strengths eq_refl)
      as [Hraise _].
    apply Hraise; [| reflexivity | lra].
    rewrite credit_risk_outputs. cbn [consequent_var]. set_solver.
  - destruct (H create_credit_risk_fis
                (mkFuzzyRule (fun _ => Ok 1) "income" "extreme")
                (<["credit_history" := 8]>
                   (<["dependents" := 1]> (<["income" := 8000000]> ∅)))
                [1; 1; 0; 0; 0; 0] 1
                credit_risk_engine_invariant scenario_strengths eq_refl)
      as [_ Hsame].
    apply Hsame. left. rewrite credit_risk_outputs. cbn [consequent_var].
    intros Hin. apply elem_of_union in Hin as [Hin | Hin];
      apply elem_of_singleton in Hin; discriminate Hin.
Defined.
